(** * seller-apis: stock and price synchronisation with two marketplaces

    A shallow embedding of [seller.py] (the Ozon account) and [market.py]
    (the Yandex Market accounts), and the properties of their transform and
    batching core: [price_conversion], [divide], [get_offer_ids],
    [create_stocks], [create_prices] and the orchestrating [main].

    Conventions of the embedding.
    - A Python [str] is a [string]: the bytes of its UTF-8 encoding.  The
      characters that [split], [re.sub] and [==] inspect (['.'], the digits
      ['0'] to ['9'], ['>']) are ASCII, and no byte of a multi-byte UTF-8
      sequence is ASCII, so splitting on ['.'] and deleting non-digits act
      on the bytes exactly as they act on the characters.  [int] is the
      one built-in that looks at characters outside ASCII (it takes the
      decimal digits and the white space of every script): [Py.int] decodes
      the bytes first.
    - A Python [int] is a [Z].
    - An exception is a value of [exn]; a call that may raise runs in the
      monad [M], which threads the [world] and keeps the changes made to it
      before the exception was raised, as Python does.
    - The one Python object that is mutated in place while it is shared, the
      list of offer ids, lives in the [heap] of the [world] and is passed by
      reference ([loc]).  Lists that are only built and returned
      ([stocks], [prices], [product_list]) are values. *)

From Stdlib Require Import ZArith Ascii Lia.
From stdpp Require Import base option list strings gmap.

Local Open Scope string_scope.
Local Open Scope list_scope.
Local Open Scope Z_scope.

(** The exceptions that the modelled code can raise.  [NoResponse] is not a
    Python exception: it marks a run that asked the marketplace for one more
    answer than the scripted conversation provides. *)
Inductive exn : Type :=
| ValueError
| AttributeError
| HTTPError
| ReadTimeout
| ConnectionError
| NoResponse.

(** ** Python built-ins used by the two files *)

Module Py.

Definition is_digit (a : ascii) : bool :=
  match Ascii.is_nat a with Some _ => true | None => false end.

(** The white space that [int()] skips at the two ends of its buffer (C's
    [Py_ISSPACE]): tab, line feed, vertical tab, form feed, carriage return
    and space. *)
Definition is_space (a : ascii) : bool :=
  let n := nat_of_ascii a in
  ((9 <=? n)%nat && (n <=? 13)%nat) || (n =? 32)%nat.

(** [s.split(sep)] for a one-character separator. *)
Fixpoint split (sep : ascii) (s : string) : list string :=
  match s with
  | EmptyString => [EmptyString]
  | String a s' =>
      if Ascii.eqb a sep then EmptyString :: split sep s'
      else match split sep s' with
           | [] => [String a EmptyString]
           | h :: t => String a h :: t
           end
  end.

(** [re.sub("[" ^ cls "]", repl, s)] for a character class [cls]: every
    character of the class is replaced by [repl], the others are kept. *)
Fixpoint re_sub_class (cls : ascii -> bool) (repl s : string) : string :=
  match s with
  | EmptyString => EmptyString
  | String a s' =>
      if cls a then String.app repl (re_sub_class cls repl s')
      else String a (re_sub_class cls repl s')
  end.

(** The digits of an integer literal: decimal digits, single underscores
    allowed between two digits. *)
Fixpoint int_digits (s : list ascii) (acc : Z) (after_digit : bool) : option Z :=
  match s with
  | [] => if after_digit then Some acc else None
  | a :: s' =>
      match Ascii.is_nat a with
      | Some d => int_digits s' (10 * acc + Z.of_nat d) true
      | None =>
          if Ascii.eqb a "_"%char && after_digit then int_digits s' acc false
          else None
      end
  end.

Fixpoint lstrip (s : list ascii) : list ascii :=
  match s with
  | a :: s' => if is_space a then lstrip s' else s
  | [] => []
  end.

Definition strip (s : list ascii) : list ascii :=
  rev (lstrip (rev (lstrip s))).

Definition byte (a : ascii) : Z := Z.of_nat (nat_of_ascii a).

Definition continuation (a : ascii) : bool :=
  (128 <=? byte a) && (byte a <? 192).

(** The code points of a string, from the bytes of its UTF-8 encoding; a
    byte that begins no well-formed sequence gives [-1]. *)
Fixpoint utf8_decode (s : list ascii) : list Z :=
  match s with
  | [] => []
  | a :: s1 =>
      let n := byte a in
      if n <? 128 then n :: utf8_decode s1
      else
        match s1 with
        | b :: s2 =>
            let two := (n - 192) * 64 + (byte b - 128) in
            if (192 <=? n) && (n <? 224) && continuation b && (128 <=? two)
            then two :: utf8_decode s2
            else
              match s2 with
              | c :: s3 =>
                  let three :=
                    (n - 224) * 4096 + (byte b - 128) * 64 + (byte c - 128) in
                  if (224 <=? n) && (n <? 240) && continuation b && continuation c
                     && (2048 <=? three)
                     && negb ((55296 <=? three) && (three <? 57344))
                  then three :: utf8_decode s3
                  else
                    match s3 with
                    | d :: s4 =>
                        let four :=
                          (n - 240) * 262144 + (byte b - 128) * 4096
                          + (byte c - 128) * 64 + (byte d - 128) in
                        if (240 <=? n) && (n <? 248) && continuation b
                           && continuation c && continuation d
                           && (65536 <=? four) && (four <? 1114112)
                        then four :: utf8_decode s4
                        else (-1) :: utf8_decode s1
                    | [] => (-1) :: utf8_decode s1
                    end
              | [] => (-1) :: utf8_decode s1
              end
        | [] => [-1]
        end
  end.

(** The code points from 127 on that are white space ([str.isspace]). *)
Definition unicode_spaces : list Z :=
  [133; 160; 5760; 8192; 8193; 8194; 8195; 8196; 8197; 8198; 8199; 8200;
   8201; 8202; 8232; 8233; 8239; 8287; 12288].

(** The zeros of the decimal digits of Unicode 14.0 outside ASCII; the
    digits 1 to 9 of each script follow its zero. *)
Definition decimal_zeros : list Z :=
  [1632; 1776; 1984; 2406; 2534; 2662; 2790; 2918; 3046; 3174; 3302; 3430;
   3558; 3664; 3792; 3872; 4160; 4240; 6112; 6160; 6470; 6608; 6784; 6800;
   6992; 7088; 7232; 7248; 42528; 43216; 43264; 43472; 43504; 43600; 44016;
   65296; 66720; 68912; 69734; 69872; 69942; 70096; 70384; 70736; 70864;
   71248; 71360; 71472; 71904; 72016; 72784; 73040; 73120; 92768; 92864;
   93008; 120782; 120792; 120802; 120812; 120822; 123200; 123632; 125264;
   130032].

(** The value of a decimal digit outside ASCII. *)
Definition decimal (cp : Z) : option Z :=
  match List.find (fun zero => (zero <=? cp) && (cp <? zero + 10)) decimal_zeros with
  | Some zero => Some (cp - zero)
  | None => None
  end.

(** What [int()] makes of a code point before it parses: a code point
    below 127 stays, white space becomes a space, a decimal digit its ASCII
    digit, anything else a ['?'].  (CPython drops what follows the first
    ['?']; the parse fails on the ['?'] either way.) *)
Definition int_char (cp : Z) : ascii :=
  if (0 <=? cp) && (cp <? 127) then ascii_of_nat (Z.to_nat cp)
  else if bool_decide (cp ∈ unicode_spaces) then " "%char
  else match decimal cp with
       | Some d => ascii_of_nat (Z.to_nat (48 + d))
       | None => "?"%char
       end.

(** The most decimal digits that [int()] converts. *)
Definition max_str_digits : Z := 4300.

(** [int(s)] for a string [s], base ten, as CPython 3.11 does it with its
    default limit and the digits of Unicode 14.0: the code points are
    brought to ASCII, then come white space, an optional sign, the digits,
    white space; more than [max_str_digits] digits are refused. *)
Definition int (s : string) : exn + Z :=
  let buffer := map int_char (utf8_decode (String.list_ascii_of_string s)) in
  let body := strip buffer in
  let parsed :=
    match body with
    | a :: rest =>
        if Ascii.eqb a "-"%char then Z.opp <$> int_digits rest 0 false
        else if Ascii.eqb a "+"%char then int_digits rest 0 false
        else int_digits body 0 false
    | [] => None
    end in
  match parsed with
  | Some z =>
      if Z.of_nat (length (List.filter is_digit body)) <=? max_str_digits
      then inr z
      else inl ValueError
  | None => inl ValueError
  end.

(** [range(start, stop, step)], materialised. *)
Definition range (start stop step : Z) : exn + list Z :=
  if step =? 0 then inl ValueError
  else
    let len :=
      if 0 <? step
      then (if start <? stop then (stop - start - 1) / step + 1 else 0)
      else (if stop <? start then (start - stop - 1) / (- step) + 1 else 0) in
    inr (map (fun k => start + Z.of_nat k * step) (seq 0 (Z.to_nat len))).

(** A slice bound, as [lst[i:j]] normalises it: a negative bound counts
    from the end, and every bound is clamped to [0 .. len]. *)
Definition slice_bound (len i : Z) : nat :=
  Z.to_nat (Z.min len (if i <? 0 then Z.max 0 (i + len) else i)).

(** [lst[i:j]] *)
Definition slice {A} (lst : list A) (i j : Z) : list A :=
  let len := Z.of_nat (length lst) in
  let lo := slice_bound len i in
  let hi := slice_bound len j in
  take (hi - lo) (drop lo lst).

(** [x in lst] for a list of strings. *)
Definition contains (lst : list string) (x : string) : bool :=
  bool_decide (x ∈ lst).

(** [lst.remove(x)]: the first occurrence goes; [ValueError] if there is
    none. *)
Fixpoint remove (lst : list string) (x : string) : exn + list string :=
  match lst with
  | [] => inl ValueError
  | y :: lst' =>
      if bool_decide (y = x) then inr lst'
      else match remove lst' x with
           | inl e => inl e
           | inr r => inr (y :: r)
           end
  end.

End Py.


(** ** The world: heap of list objects and the HTTP conversation *)

Definition loc := positive.

(** [Q] is the type of the requests a file sends, [P] the type of the
    [result] field of a listing response.  A reply is an error status
    (raised by [raise_for_status]) or a decoded body, whose [result] is
    present or not. *)
Record world {Q P W : Type} : Type := World {
  heap : gmap loc (list string);   (* the list objects that hold offer ids *)
  replies : list (exn + option P); (* what the marketplace will answer, in order *)
  requests : list Q;               (* what was sent so far, oldest first *)
  ostatki : exn + list W;          (* the supplier's file, as download_stock finds it *)
  stdout : list string;            (* what was printed *)
  clock : nat → string;            (* what the calls of utcnow() to come will
                                      read, to the second, in ISO format *)
}.
Arguments world : clear implicits.
Arguments World {Q P W}.

Section Monad.
Context {Q P W : Type}.
#[local] Abbreviation world := (world Q P W).

Definition M (A : Type) : Type := world -> (exn + A) * world.

Definition ret {A} (x : A) : M A := fun w => (inr x, w).
Definition raise {A} (e : exn) : M A := fun w => (inl e, w).
Definition bind {A B} (c : M A) (k : A -> M B) : M B :=
  fun w => match c w with
           | (inr x, w') => k x w'
           | (inl e, w') => (inl e, w')
           end.
Definition lift {A} (r : exn + A) : M A := fun w => (r, w).

(** [for x in l: s = body(x, s)] *)
Fixpoint for_loop {A S} (l : list A) (body : A -> S -> M S) (s : S) : M S :=
  match l with
  | [] => ret s
  | x :: l' => bind (body x s) (for_loop l' body)
  end.

(** [while True:], the body saying whether it breaks ([inr]) or goes round
    again ([inl]).  The loops of this program send one request per round,
    so the number of rounds is bounded by the replies still to come. *)
Fixpoint while_true {S R} (fuel : nat) (body : S -> M (S + R)) (s : S) : M R :=
  match fuel with
  | O => raise NoResponse
  | Datatypes.S fuel' =>
      bind (body s) (fun r =>
        match r with
        | inl s' => while_true fuel' body s'
        | inr x => ret x
        end)
  end.

(** [try: c except ...: handler]; only Python exceptions can be caught. *)
Definition try_except {A} (c : M A) (handler : exn -> M A) : M A :=
  fun w => match c w with
           | (inl NoResponse, w') => (inl NoResponse, w')
           | (inl e, w') => handler e w'
           | (inr x, w') => (inr x, w')
           end.

(** *** List objects *)

Definition set_heap (h : gmap loc (list string)) (w : world) : world :=
  World h (replies w) (requests w) (ostatki w) (stdout w) (clock w).

(** A new list object holding [l]. *)
Definition new_list (l : list string) : M loc :=
  fun w =>
    let r := fresh (dom (heap w)) in
    (inr r, set_heap (<[r := l]> (heap w)) w).

(** The current content of a list object.  A reference that [new_list] has
    returned is never dangling; the error is there for the others. *)
Definition read_list (r : loc) : M (list string) :=
  fun w => match heap w !! r with
           | Some l => (inr l, w)
           | None => (inl AttributeError, w)
           end.

(** [x in r] *)
Definition list_contains (r : loc) (x : string) : M bool :=
  bind (read_list r) (fun l => ret (Py.contains l x)).

(** [r.remove(x)] *)
Definition list_remove (r : loc) (x : string) : M unit :=
  bind (read_list r) (fun l =>
  bind (lift (Py.remove l x)) (fun l' =>
  fun w => (inr tt, set_heap (<[r := l']> (heap w)) w))).

(** *** HTTP *)

(** One blocking request: it is logged, the next scripted reply is taken,
    and an error status raises. *)
Definition http (q : Q) : M (option P) :=
  fun w =>
    let sent := requests w ++ [q] in
    match replies w with
    | [] => (inl NoResponse, World (heap w) [] sent (ostatki w) (stdout w) (clock w))
    | r :: rs => (r, World (heap w) rs sent (ostatki w) (stdout w) (clock w))
    end.

(** [download_stock()] *)
Definition download_stock : M (list W) :=
  fun w => (ostatki w, w).

(** The world once the clock has been read: the next call reads what
    follows. *)
Definition tick (w : world) : world :=
  World (heap w) (replies w) (requests w) (ostatki w) (stdout w)
    (fun n => clock w (S n)).

(** [datetime.datetime.utcnow().replace(microsecond=0).isoformat()]: every
    call reads the clock anew. *)
Definition utcnow_iso : M string :=
  fun w => (inr (clock w 0%nat), tick w).

(** [print]: the literal part of the message is recorded. *)
Definition print (s : string) : M unit :=
  fun w => (inr tt, World (heap w) (replies w) (requests w) (ostatki w) (stdout w ++ [s]) (clock w)).

(** The number of replies still to come, plus one: enough rounds for any
    loop that sends a request per round. *)
Definition rounds : M nat :=
  fun w => (inr (S (length (replies w))), w).

(** *** Coroutines *)

(** Calling an [async def] function runs nothing: it returns the coroutine
    object, which holds the body. *)
Definition call_async {A} (body : M A) : M (M A) := ret body.

(** [await c] runs the body. *)
Definition await {A} (c : M A) : M A := c.

End Monad.

Arguments M : clear implicits.

Notation "'let*' x := c 'in' k" := (bind c (fun x => k))
  (at level 10, x pattern, c at level 100, k at level 200).

(** ** The supplier's records *)

(** One row of the supplier's file: the columns [Код], [Количество] and
    [Цена], each a string as the data model has them. *)
Record watch : Type := Watch {
  Kod : string;
  Kolichestvo : string;
  Tsena : string;
}.

(** ** seller.py *)

Module Seller.

Record product : Type := Product { product_offer_id : string }.

(** The [result] of [/v2/product/list]. *)
Record page : Type := Page {
  items : list product;
  total : Z;
  last_id : string;
}.

Record stock_rec : Type := Stock { offer_id : string; stock : Z }.

Record price_rec : Type := Price {
  auto_action_enabled : string;
  currency_code : string;
  price_offer_id : string;
  old_price : string;
  price : string;
}.

Inductive request : Type :=
| ProductList (last_id : string)           (* /v2/product/list *)
| ImportPrices (prices : list price_rec)   (* /v1/product/import/prices *)
| ImportStocks (stocks : list stock_rec).  (* /v1/product/import/stocks *)

#[local] Abbreviation M := (M request page watch).

Definition get_product_list (last_id : string) : M (option page) :=
  http (ProductList last_id).

Definition get_offer_ids : M loc :=
  let* fuel := rounds in
  let* product_list :=
    while_true fuel (fun '(last_id, product_list) =>
      let* some_prod := get_product_list last_id in
      match some_prod with
      | None => raise AttributeError
      | Some some_prod =>
          let product_list := product_list ++ items some_prod in
          let total := total some_prod in
          let last_id := Seller.last_id some_prod in
          if total =? Z.of_nat (length product_list)
          then ret (inr product_list)
          else ret (inl (last_id, product_list))
      end) (EmptyString, []) in
  let* offer_ids :=
    for_loop product_list (fun product offer_ids =>
      ret (offer_ids ++ [product_offer_id product])) [] in
  new_list offer_ids.

Definition update_price (prices : list price_rec) : M unit :=
  let* _ := http (ImportPrices prices) in ret tt.

Definition update_stocks (stocks : list stock_rec) : M unit :=
  let* _ := http (ImportStocks stocks) in ret tt.

Definition create_stocks (watch_remnants : list watch) (offer_ids : loc)
  : M (list stock_rec) :=
  let* stocks :=
    for_loop watch_remnants (fun watch stocks =>
      let* known := list_contains offer_ids (Kod watch) in
      if known : bool then
        let count := Kolichestvo watch in
        let* stock :=
          if bool_decide (count = ">10") then ret 100
          else if bool_decide (count = "1") then ret 0
          else lift (Py.int (Kolichestvo watch)) in
        let stocks := stocks ++ [Stock (Kod watch) stock] in
        let* _ := list_remove offer_ids (Kod watch) in
        ret stocks
      else ret stocks) [] in
  let* remaining := read_list offer_ids in
  for_loop remaining (fun offer_id stocks =>
    ret (stocks ++ [Stock offer_id 0])) stocks.

Definition price_conversion (price : string) : string :=
  Py.re_sub_class (fun a => negb (Py.is_digit a)) EmptyString
    (nth 0 (Py.split "."%char price) EmptyString).

Definition create_prices (watch_remnants : list watch) (offer_ids : loc)
  : M (list price_rec) :=
  for_loop watch_remnants (fun watch prices =>
    let* known := list_contains offer_ids (Kod watch) in
    if known : bool then
      let price := Price "UNKNOWN" "RUB" (Kod watch) "0"
                         (price_conversion (Tsena watch)) in
      ret (prices ++ [price])
    else ret prices) [].

(** [list(divide(lst, n))]: the generator, run to its end. *)
Definition divide {A} (lst : list A) (n : Z) : exn + list (list A) :=
  match Py.range 0 (Z.of_nat (length lst)) n with
  | inl e => inl e
  | inr starts => inr (map (fun i => Py.slice lst i (i + n)) starts)
  end.

Definition main : M unit :=
  try_except
    (let* offer_ids := get_offer_ids in
     let* watch_remnants := download_stock in
     let* stocks := create_stocks watch_remnants offer_ids in
     let* batches := lift (divide stocks 100) in
     let* _ := for_loop batches (fun some_stock _ => update_stocks some_stock) tt in
     let* prices := create_prices watch_remnants offer_ids in
     let* batches := lift (divide prices 900) in
     for_loop batches (fun some_price _ => update_price some_price) tt)
    (fun error =>
       match error with
       | ReadTimeout => print "Превышено время ожидания..."
       | ConnectionError => print "Ошибка соединения"
       | _ => print "ERROR_2"
       end).

(** The body of the coroutine [upload_prices]. *)
Definition upload_prices (watch_remnants : list watch) : M (list price_rec) :=
  let* offer_ids := get_offer_ids in
  let* prices := create_prices watch_remnants offer_ids in
  let* batches := lift (divide prices 1000) in
  let* _ := for_loop batches (fun some_price _ => update_price some_price) tt in
  ret prices.

(** The body of the coroutine [upload_stocks]. *)
Definition upload_stocks (watch_remnants : list watch)
  : M (list stock_rec * list stock_rec) :=
  let* offer_ids := get_offer_ids in
  let* stocks := create_stocks watch_remnants offer_ids in
  let* batches := lift (divide stocks 100) in
  let* _ := for_loop batches (fun some_stock _ => update_stocks some_stock) tt in
  let not_empty := List.filter (fun stock => negb (Seller.stock stock =? 0)) stocks in
  ret (not_empty, stocks).

End Seller.

(** ** market.py *)

Module Market.

Record offer_rec : Type := Offer { shopSku : string }.
Record entry : Type := Entry { offer : offer_rec }.
Record paging_rec : Type := Paging { nextPageToken : option string }.

(** The [result] of [campaigns/{id}/offer-mapping-entries]. *)
Record page : Type := Page {
  offerMappingEntries : list entry;
  paging : paging_rec;
}.

Record item : Type := Item { count : Z; type : string; updatedAt : string }.

Record stock_rec : Type := Stock {
  sku : string;
  warehouseId : string;
  items : list item;
}.

Record price_value : Type := PriceValue { value : Z; currencyId : string }.
Record price_rec : Type := Price { id : string; price : price_value }.

Inductive request : Type :=
| OfferMappingEntries (page_token : string)
| OfferStocks (skus : list stock_rec)
| OfferPrices (offers : list price_rec).

#[local] Abbreviation M := (M request page watch).

Definition get_product_list (page : string) : M (option Market.page) :=
  http (OfferMappingEntries page).

(** [not page], for a token that is a string or [None]. *)
Definition falsy (page : option string) : bool :=
  match page with
  | None => true
  | Some s => bool_decide (s = EmptyString)
  end.

Definition get_offer_ids : M loc :=
  let* fuel := rounds in
  let* product_list :=
    while_true fuel (fun '(page, product_list) =>
      let* some_prod := get_product_list page in
      match some_prod with
      | None => raise AttributeError
      | Some some_prod =>
          let product_list := product_list ++ offerMappingEntries some_prod in
          let page := nextPageToken (paging some_prod) in
          if falsy page
          then ret (inr product_list)
          else ret (inl (default EmptyString page, product_list))
      end) (EmptyString, []) in
  let* offer_ids :=
    for_loop product_list (fun product offer_ids =>
      ret (offer_ids ++ [shopSku (offer product)])) [] in
  new_list offer_ids.

Definition create_stocks (watch_remnants : list watch) (offer_ids : loc)
    (warehouse_id : string) : M (list stock_rec) :=
  let* now := utcnow_iso in
  let date := String.app now "Z" in
  let* stocks :=
    for_loop watch_remnants (fun watch stocks =>
      let* known := list_contains offer_ids (Kod watch) in
      if known : bool then
        let count := Kolichestvo watch in
        let* stock :=
          if bool_decide (count = ">10") then ret 100
          else if bool_decide (count = "1") then ret 0
          else lift (Py.int (Kolichestvo watch)) in
        let stocks :=
          stocks ++ [Stock (Kod watch) warehouse_id [Item stock "FIT" date]] in
        let* _ := list_remove offer_ids (Kod watch) in
        ret stocks
      else ret stocks) [] in
  let* remaining := read_list offer_ids in
  for_loop remaining (fun offer_id stocks =>
    ret (stocks ++ [Stock offer_id warehouse_id [Item 0 "FIT" date]])) stocks.

Definition create_prices (watch_remnants : list watch) (offer_ids : loc)
  : M (list price_rec) :=
  for_loop watch_remnants (fun watch prices =>
    let* known := list_contains offer_ids (Kod watch) in
    if known : bool then
      let* value := lift (Py.int (Seller.price_conversion (Tsena watch))) in
      let price := Price (Kod watch) (PriceValue value "RUR") in
      ret (prices ++ [price])
    else ret prices) [].

Definition update_stocks (stocks : list stock_rec) : M unit :=
  let* _ := http (OfferStocks stocks) in ret tt.

Definition update_price (prices : list price_rec) : M unit :=
  let* _ := http (OfferPrices prices) in ret tt.

(** The body of the coroutine [upload_prices]. *)
Definition upload_prices (watch_remnants : list watch) : M (list price_rec) :=
  let* offer_ids := get_offer_ids in
  let* prices := create_prices watch_remnants offer_ids in
  let* batches := lift (Seller.divide prices 500) in
  let* _ := for_loop batches (fun some_prices _ => update_price some_prices) tt in
  ret prices.

(** [main], given the two warehouse ids of the environment.  The request
    log keeps the endpoint and the payload of a request, not the campaign it
    is for, so the FBS and the DBS half differ by the warehouse id only.
    [download_stock] is called before the [try]; [upload_prices] is called
    and not awaited. *)
Definition main (warehouse_fbs_id warehouse_dbs_id : string) : M unit :=
  let* watch_remnants := download_stock in
  try_except
    (let* offer_ids := get_offer_ids in
     let* stocks := create_stocks watch_remnants offer_ids warehouse_fbs_id in
     let* batches := lift (Seller.divide stocks 2000) in
     let* _ := for_loop batches (fun some_stock _ => update_stocks some_stock) tt in
     let* _ := call_async (upload_prices watch_remnants) in
     let* offer_ids := get_offer_ids in
     let* stocks := create_stocks watch_remnants offer_ids warehouse_dbs_id in
     let* batches := lift (Seller.divide stocks 2000) in
     let* _ := for_loop batches (fun some_stock _ => update_stocks some_stock) tt in
     let* _ := call_async (upload_prices watch_remnants) in
     ret tt)
    (fun error =>
       match error with
       | ReadTimeout => print "Превышено время ожидания..."
       | ConnectionError => print "Ошибка соединения"
       | _ => print "ERROR_2"
       end).

End Market.

(** ** What the loops compute, as functions of the list contents

    The functions of this section are not in the source: they say what a
    loop of [create_stocks] or [create_prices] returns and what it leaves in
    the offer-id list, as a function of what the list held when the loop
    began.  Each is proved equal to the run of the embedded code below. *)

(** The stock policy of [create_stocks]. *)
Definition stock_count (count : string) : exn + Z :=
  if bool_decide (count = ">10") then inr 100
  else if bool_decide (count = "1") then inr 0
  else Py.int count.

(** The first loop of [create_stocks], started with [work] in the offer-id
    list: the (offer id, count) pairs of the records it appends, or the
    exception, and the list it leaves. *)
Fixpoint stock_pass (watch_remnants : list watch) (work : list string)
  : (exn + list (string * Z)) * list string :=
  match watch_remnants with
  | [] => (inr [], work)
  | w :: rest =>
      if Py.contains work (Kod w) then
        match stock_count (Kolichestvo w) with
        | inl e => (inl e, work)
        | inr n =>
            match Py.remove work (Kod w) with
            | inl e => (inl e, work)
            | inr work' =>
                match stock_pass rest work' with
                | (inr out, rem) => (inr ((Kod w, n) :: out), rem)
                | (inl e, rem) => (inl e, rem)
                end
            end
        end
      else stock_pass rest work
  end.

(** Both loops of [create_stocks]: the pairs of the whole stock list. *)
Definition stocks_of (watch_remnants : list watch) (ids : list string)
  : (exn + list (string * Z)) * list string :=
  match stock_pass watch_remnants ids with
  | (inr out, rem) => (inr (out ++ map (fun id => (id, 0)) rem), rem)
  | (inl e, rem) => (inl e, rem)
  end.

(** The stock record of each file for an (offer id, count) pair. *)
Definition seller_stock (p : string * Z) : Seller.stock_rec :=
  Seller.Stock p.1 p.2.

Definition market_stock (warehouse_id date : string) (p : string * Z)
  : Market.stock_rec :=
  Market.Stock p.1 warehouse_id [Market.Item p.2 "FIT" date].

(** The loop of seller.py's [create_prices]. *)
Definition seller_prices (watch_remnants : list watch) (ids : list string)
  : list Seller.price_rec :=
  map (fun w => Seller.Price "UNKNOWN" "RUB" (Kod w) "0"
                  (Seller.price_conversion (Tsena w)))
      (filter (fun w => Kod w ∈ ids) watch_remnants).

(** The loop of market.py's [create_prices]. *)
Fixpoint market_prices (watch_remnants : list watch) (ids : list string)
  : exn + list Market.price_rec :=
  match watch_remnants with
  | [] => inr []
  | w :: rest =>
      if Py.contains ids (Kod w) then
        match Py.int (Seller.price_conversion (Tsena w)) with
        | inl e => inl e
        | inr v =>
            match market_prices rest ids with
            | inr out => inr (Market.Price (Kod w) (Market.PriceValue v "RUR") :: out)
            | inl e => inl e
            end
        end
      else market_prices rest ids
  end.

(** A record of the supplier is matched when the loop of [create_stocks]
    reaches it with its code still in the offer-id list: the list held the
    code more often than the records before this one carried it. *)
Definition matched (ids : list string) (before : list watch) (w : watch) : Prop :=
  (length (filter (fun v => Kod v = Kod w) before)
   < length (filter (fun id => id = Kod w) ids))%nat.

(** The quantity strings that [create_stocks] cannot turn into a count:
    neither of the two it knows, and [int] raises on them. *)
Definition malformed (count : string) : Prop :=
  count ≠ ">10" ∧ count ≠ "1" ∧ Py.int count = inl ValueError.

(** [pre] is the part of [price] before its first ['.']: the rest is empty
    (no ['.'] at all) or begins with the first ['.']. *)
Definition before_first_dot (price pre : string) : Prop :=
  ∃ rest,
    price = String.app pre rest
    ∧ (rest = EmptyString ∨ ∃ r, rest = String "."%char r)
    ∧ "."%char ∉ String.list_ascii_of_string pre.

(** The digits of a string, in order. *)
Definition digits_of (s : string) : string :=
  String.string_of_list_ascii
    (filter (fun a => Py.is_digit a) (String.list_ascii_of_string s)).

(** [create_stocks] with the construction of the stock record left open;
    the two files' functions are instances of it (by computation). *)
Definition create_stocks_with {Q P W R} (mk : string * Z -> R)
    (watch_remnants : list watch) (offer_ids : loc) : M Q P W (list R) :=
  let* stocks :=
    for_loop watch_remnants (fun watch stocks =>
      let* known := list_contains offer_ids (Kod watch) in
      if known : bool then
        let count := Kolichestvo watch in
        let* stock :=
          if bool_decide (count = ">10") then ret 100
          else if bool_decide (count = "1") then ret 0
          else lift (Py.int (Kolichestvo watch)) in
        let stocks := stocks ++ [mk (Kod watch, stock)] in
        let* _ := list_remove offer_ids (Kod watch) in
        ret stocks
      else ret stocks) [] in
  let* remaining := read_list offer_ids in
  for_loop remaining (fun offer_id stocks =>
    ret (stocks ++ [mk (offer_id, 0)])) stocks.

(** What the invariant of the stock list says of the (offer id, count)
    pairs of a stock list, for the codes of the supplier's records and the
    known offer ids: the ids of the list are the codes that are known
    together with the known ids that no record carries; the latter come with
    count 0; no id comes twice; no id is outside the known ones. *)
Definition covers (codes ids : list string) (pairs : list (string * Z)) : Prop :=
  (∀ id, id ∈ map fst pairs ↔ (id ∈ codes ∧ id ∈ ids) ∨ (id ∈ ids ∧ id ∉ codes))
  ∧ (∀ id, id ∈ ids → id ∉ codes → (id, 0) ∈ pairs)
  ∧ (∀ id n, (id, n) ∈ pairs → id ∉ codes → n = 0)
  ∧ NoDup (map fst pairs)
  ∧ (∀ id, id ∈ map fst pairs → id ∈ ids).

(** The stock policy in the words of the specification: [">10"] is 100,
    ["1"] is 0, any other quantity is the integer it parses to. *)
Definition stock_policy (quantity : string) (n : Z) : Prop :=
  (quantity = ">10" ∧ n = 100)
  ∨ (quantity = "1" ∧ n = 0)
  ∨ (quantity ≠ ">10" ∧ quantity ≠ "1" ∧ Py.int quantity = inr n).

(** A clock that reads [now] at every call: all the calls fall in one
    second.  A clock that reads [times] in order and [last] ever after. *)
Definition always (now : string) : nat → string := fun _ => now.

Definition readings (times : list string) (last : string) : nat → string :=
  fun n => nth n times last.

(** The world of seller.py in which one list object holds [ids] and nothing
    has happened yet. *)
Definition seller_world (ids : list string)
  : world Seller.request Seller.page watch :=
  World {[ 1%positive := ids ]} [] [] (inr []) [] (always EmptyString).

(** The same for market.py, with a given clock. *)
Definition market_world (ids : list string) (now : nat → string)
  : world Market.request Market.page watch :=
  World {[ 1%positive := ids ]} [] [] (inr []) [] now.

(** [res] raises the parse error exactly when [cond] holds, and raises
    nothing else. *)
Definition raises_exactly_when {A} (res : exn + A) (cond : Prop) : Prop :=
  (res = inl ValueError ↔ cond) ∧ (∀ e, res = inl e → e = ValueError).

(** The account of the end-to-end scenario: the marketplace lists the
    offers ["X"] and ["Y"] on one page and accepts two pushes; the supplier
    has ["X"], five pieces, at 100 roubles. *)
Definition scenario_world : world Seller.request Seller.page watch :=
  World ∅
    [inr (Some (Seller.Page [Seller.Product "X"; Seller.Product "Y"] 2 "Y"));
     inr None; inr None]
    [] (inr [Watch "X" "5" "100.00 руб."]) [] (always EmptyString).

(** The world once the requests [sent] have been answered, [rest] being the
    replies still to come. *)
Definition answered {Q P W} (w : world Q P W) (sent : list Q)
    (rest : list (exn + option P)) : world Q P W :=
  World (heap w) rest (requests w ++ sent) (ostatki w) (stdout w) (clock w).

(** The replies that deliver the pages [pages], in order. *)
Definition deliver {P} (pages : list P) : list (exn + option P) :=
  map (fun p => inr (Some p)) pages.

(** The products listed on a sequence of pages of seller.py, in order. *)
Definition seller_listed (pages : list Seller.page) : list Seller.product :=
  concat (map Seller.items pages).

(** The entries listed on a sequence of pages of market.py, in order. *)
Definition market_listed (pages : list Market.page) : list Market.entry :=
  concat (map Market.offerMappingEntries pages).

(** The page token of a page of market.py, as the next request sends it. *)
Definition market_token (p : Market.page) : string :=
  default EmptyString (Market.nextPageToken (Market.paging p)).

(** A conversation of seller.py in two pages, and one of market.py. *)
Definition seller_two_pages : world Seller.request Seller.page watch :=
  World ∅
    (deliver [Seller.Page [Seller.Product "X"] 2 "X";
              Seller.Page [Seller.Product "Y"] 2 "Y"])
    [] (inr []) [] (always EmptyString).

Definition market_two_pages : world Market.request Market.page watch :=
  World ∅
    (deliver
       [Market.Page [Market.Entry (Market.Offer "X")] (Market.Paging (Some "t1"));
        Market.Page [Market.Entry (Market.Offer "Y")] (Market.Paging None)])
    [] (inr []) [] (always EmptyString).

(** A conversation of seller.py in which the second page adds no product
    and the declared total, 2, is reached on the third page only. *)
Definition seller_stalled : world Seller.request Seller.page watch :=
  World ∅
    (deliver [Seller.Page [Seller.Product "a"] 2 "x";
              Seller.Page [] 2 "x";
              Seller.Page [Seller.Product "b"] 2 "y"])
    [] (inr []) [] (always EmptyString).

(** ** What the conversations do with the replies to come

    Like the passes above, the functions of this section are not in the
    source; each is proved equal to the run of the embedded loop. *)

Section Conversations.
Context {Q P S R B : Type}.

(** A paging loop in state [s]: each round sends [request_of s] and takes
    one reply; [step] says whether the page ends the loop.  The result, the
    requests sent and the replies left. *)
Fixpoint pages_run (request_of : S -> Q) (step : S -> P -> S + R) (s : S)
    (script : list (exn + option P))
  : (exn + R) * list Q * list (exn + option P) :=
  match script with
  | [] => (inl NoResponse, [request_of s], [])
  | inl e :: rest => (inl e, [request_of s], rest)
  | inr None :: rest => (inl AttributeError, [request_of s], rest)
  | inr (Some p) :: rest =>
      match step s p with
      | inr x => (inr x, [request_of s], rest)
      | inl s' =>
          match pages_run request_of step s' rest with
          | (res, sent, rest') => (res, request_of s :: sent, rest')
          end
      end
  end.

(** A loop that pushes the batches one by one, each in the request
    [request_of batch], up to the first error status. *)
Fixpoint push_run (request_of : B -> Q) (batches : list B)
    (script : list (exn + option P))
  : (exn + unit) * list Q * list (exn + option P) :=
  match batches with
  | [] => (inr tt, [], script)
  | b :: bs =>
      match script with
      | [] => (inl NoResponse, [request_of b], [])
      | inl e :: rest => (inl e, [request_of b], rest)
      | inr _ :: rest =>
          match push_run request_of bs rest with
          | (res, sent, rest') => (res, request_of b :: sent, rest')
          end
      end
  end.
End Conversations.

(** The round of seller.py's [get_offer_ids]. *)
Definition seller_request (s : string * list Seller.product) : Seller.request :=
  Seller.ProductList s.1.

Definition seller_step (s : string * list Seller.product) (p : Seller.page)
  : (string * list Seller.product) + list Seller.product :=
  if Seller.total p =? Z.of_nat (length (s.2 ++ Seller.items p))
  then inr (s.2 ++ Seller.items p)
  else inl (Seller.last_id p, s.2 ++ Seller.items p).

(** The round of market.py's [get_offer_ids]. *)
Definition market_request (s : string * list Market.entry) : Market.request :=
  Market.OfferMappingEntries s.1.

Definition market_step (s : string * list Market.entry) (p : Market.page)
  : (string * list Market.entry) + list Market.entry :=
  if Market.falsy (Market.nextPageToken (Market.paging p))
  then inr (s.2 ++ Market.offerMappingEntries p)
  else inl (market_token p, s.2 ++ Market.offerMappingEntries p).

(** The line that the handlers of [main] print for an exception. *)
Definition error_line (e : exn) : string :=
  match e with
  | ReadTimeout => "Превышено время ожидания..."
  | ConnectionError => "Ошибка соединения"
  | _ => "ERROR_2"
  end.

(** The world after [main] has caught [e]. *)
Definition printed {Q P W} (w : world Q P W) (line : string) : world Q P W :=
  World (heap w) (replies w) (requests w) (ostatki w) (stdout w ++ [line]) (clock w).

(** What ends a conversation without a result: an error status [e], a body
    without [result], or no reply at all.  [rest] are the replies left. *)
Inductive ends_with {P} : list (exn + option P) -> exn -> list (exn + option P) -> Prop :=
| ends_status e rest : ends_with (inl e :: rest) e rest
| ends_no_result rest : ends_with (inr None :: rest) AttributeError rest
| ends_silent : ends_with [] NoResponse [].

(** A computation that, from any world, adds to the log of requests only
    requests that satisfy [ok]. *)
Definition sends_only {Q P W A} (ok : Q -> Prop) (c : M Q P W A) : Prop :=
  ∀ w, ∃ sent, requests (c w).2 = requests w ++ sent ∧ Forall ok sent.

(** Two accounts of market.py: the FBS account lists ["X"], the DBS account
    ["X"] and ["Z"]; every push is accepted; the supplier has ["X"], five
    pieces. *)
Definition market_accounts : world Market.request Market.page watch :=
  World ∅
    [inr (Some (Market.Page [Market.Entry (Market.Offer "X")] (Market.Paging None)));
     inr None;
     inr (Some (Market.Page [Market.Entry (Market.Offer "X");
                             Market.Entry (Market.Offer "Z")]
                  (Market.Paging (Some EmptyString))));
     inr None]
    [] (inr [Watch "X" "5" "100.00 руб."]) []
    (readings ["2024-01-01T00:00:00"] "2024-01-01T00:00:07").

(** * Properties *)


(** ** Strings *)

(** [String.app] does not reduce under [simpl]; this unfolds it one step on
    an empty or non-empty first argument. *)
Ltac str_app :=
  repeat first
    [ progress change (String.app EmptyString ?y) with y in *
    | progress change (String.app (String ?a ?x) ?y)
        with (String a (String.app x y)) in * ].

Section Strings.
Implicit Types (s pre rest : string) (a sep : ascii).

Lemma split_not_nil sep s : Py.split sep s ≠ [].
Proof.
  destruct s as [|a s]; simpl; [done|].
  destruct (Ascii.eqb a sep); [done|]. by destruct (Py.split sep s).
Qed.

(** The first field of a split is the text before the first separator. *)
Lemma split_head price :
  before_first_dot price (nth 0 (Py.split "."%char price) EmptyString).
Proof.
  unfold before_first_dot.
  induction price as [|a s IH]; simpl.
  - exists EmptyString. split_and!; [done|by left|apply not_elem_of_nil].
  - destruct (Ascii.eqb_spec a "."%char) as [->|Hne]; simpl.
    + exists (String "."%char s). split_and!; [done|right; eauto|apply not_elem_of_nil].
    + destruct IH as (rest & Hs & Hrest & Hno).
      pose proof (split_not_nil "."%char s) as Hnil.
      destruct (Py.split "."%char s) as [|h t]; [done|]. simpl in *.
      exists rest. split_and!; [str_app; by f_equal|done|].
      apply not_elem_of_cons. by split.
Qed.

(** There is one such part only. *)
Lemma before_first_dot_unique price pre1 pre2 :
  before_first_dot price pre1 → before_first_dot price pre2 → pre1 = pre2.
Proof.
  revert price pre2. induction pre1 as [|a pre1 IH]; intros price pre2.
  - intros (r1 & -> & Hr1 & _) (r2 & H2 & Hr2 & Hno). str_app.
    destruct pre2 as [|b pre2]; [done|]. exfalso.
    destruct Hr1 as [->|[r ->]]; [done|].
    str_app. injection H2 as <- _. apply Hno. simpl. by left.
  - intros (r1 & -> & Hr1 & Hno1) (r2 & H2 & Hr2 & Hno2).
    destruct pre2 as [|b pre2].
    + exfalso. str_app. destruct Hr2 as [->|[r ->]]; [done|].
      injection H2 as -> _. apply Hno1. simpl. by left.
    + str_app. injection H2 as <- H2. f_equal.
      apply (IH (String.app pre1 r1)).
      * exists r1. split_and!; [done|done|].
        intros Hin. apply Hno1. simpl. by right.
      * exists r2. split_and!; [done|done|].
        intros Hin. apply Hno2. simpl. by right.
Qed.

Lemma re_sub_delete (cls : ascii -> bool) s :
  Py.re_sub_class cls EmptyString s
  = String.string_of_list_ascii
      (filter (fun a => negb (cls a)) (String.list_ascii_of_string s)).
Proof.
  induction s as [|a s IH]; simpl; [done|].
  rewrite filter_cons. destruct (cls a); simpl; str_app; by rewrite IH.
Qed.

Lemma price_conversion_digits price :
  Seller.price_conversion price
  = digits_of (nth 0 (Py.split "."%char price) EmptyString).
Proof.
  unfold Seller.price_conversion, digits_of. rewrite re_sub_delete.
  f_equal. apply list_filter_iff. intros a. by rewrite negb_involutive.
Qed.

Lemma digits_of_none s :
  Forall (fun a => Py.is_digit a = false) (String.list_ascii_of_string s) →
  digits_of s = EmptyString.
Proof.
  unfold digits_of.
  induction 1 as [|a l Ha _ IH]; [done|].
  rewrite filter_cons, decide_False; [done|]. rewrite Ha. by intros [].
Qed.

Lemma digits_of_all_digits s :
  Forall (fun a => Py.is_digit a = true)
         (String.list_ascii_of_string (digits_of s)).
Proof.
  unfold digits_of. rewrite String.list_ascii_of_string_of_list_ascii.
  apply Forall_forall. intros a [Ha _]%list_elem_of_filter.
  by apply Is_true_eq_true.
Qed.
End Strings.

(** C5.  [price_conversion] returns the part of its argument before the
    first ['.'], with every character that is not a decimal digit removed.
    Every string has exactly one part [pre] before its first ['.'] (the
    whole string when it holds no ['.']); the result is the digits of [pre]
    in order, it holds digits only, and it is the empty string when [pre]
    holds no digit.  The example of the docstring: ["5'990.00 руб."] gives
    ["5990"]. *)
Theorem price_conversion_spec (price : string) :
  (∃ pre, before_first_dot price pre)
  ∧ (∀ pre, before_first_dot price pre →
       Seller.price_conversion price = digits_of pre
       ∧ (Forall (fun a => Py.is_digit a = false)
                 (String.list_ascii_of_string pre) →
          Seller.price_conversion price = EmptyString))
  ∧ Forall (fun a => Py.is_digit a = true)
           (String.list_ascii_of_string (Seller.price_conversion price))
  ∧ Seller.price_conversion "5'990.00 руб." = "5990".
Proof.
  pose proof (split_head price) as Hhead.
  split_and!.
  - eauto.
  - intros pre Hpre.
    rewrite (before_first_dot_unique _ _ _ Hpre Hhead).
    rewrite price_conversion_digits. split; [done|]. apply digits_of_none.
  - rewrite price_conversion_digits. apply digits_of_all_digits.
  - reflexivity.
Qed.

(** The second example of the specification, and a price without a digit
    before the ['.']. *)
Lemma price_conversion_spec_witness :
  Seller.price_conversion "199.00 руб." = "199"
  ∧ Seller.price_conversion "руб.00" = EmptyString.
Proof.
  split.
  - destruct (price_conversion_spec "199.00 руб.") as (_ & H & _).
    destruct (H "199") as [-> _]; [|reflexivity].
    exists ".00 руб.". split_and!; [reflexivity|right; eauto|].
    apply (bool_decide_unpack _). by vm_compute.
  - destruct (price_conversion_spec "руб.00") as (_ & H & _).
    destruct (H "руб") as [_ Hempty].
    + exists ".00". split_and!; [reflexivity|right; eauto|].
      apply (bool_decide_unpack _). by vm_compute.
    + apply Hempty. vm_compute. repeat constructor.
Defined.

(** ** The batch splitter *)

Section Divide.
Context {A : Type}.
Implicit Types (lst : list A) (n : Z) (k c : nat).

(** The number of chunks is the ceiling of [len / n]. *)
Lemma ceil_bounds (len n : Z) :
  0 <= len → 0 < n →
  let c := (len + n - 1) / n in
  0 <= c ∧ n * (c - 1) < len <= n * c.
Proof.
  intros Hlen Hn c.
  pose proof (Z.div_mod (len + n - 1) n ltac:(lia)) as Hdm.
  pose proof (Z.mod_pos_bound (len + n - 1) n Hn) as Hr.
  fold c in Hdm. split; [apply Z.div_pos; lia|nia].
Qed.

Lemma range_from_zero (len n : Z) :
  0 <= len → 0 < n →
  Py.range 0 len n
  = inr (map (fun k => Z.of_nat k * n) (seq 0 (Z.to_nat ((len + n - 1) / n)))).
Proof.
  intros Hlen Hn. unfold Py.range.
  assert ((n =? 0) = false) as -> by lia.
  assert ((0 <? n) = true) as -> by lia.
  do 2 f_equal.
  destruct (Z.ltb_spec 0 len) as [Hpos|Hzero].
  - replace (len + n - 1) with (len - 0 - 1 + 1 * n) by lia.
    rewrite Z.div_add by lia. done.
  - assert (len = 0) as -> by lia. simpl.
    rewrite Z.div_small by lia. done.
Qed.

(** A slice that starts inside the list and spans [n] positions. *)
Lemma slice_chunk lst n k :
  0 < n → (k * Z.to_nat n < length lst)%nat →
  Py.slice lst (Z.of_nat k * n) (Z.of_nat k * n + n)
  = take (Z.to_nat n) (drop (k * Z.to_nat n) lst).
Proof.
  intros Hn Hk. unfold Py.slice, Py.slice_bound.
  assert ((Z.of_nat k * n <? 0) = false) as -> by nia.
  assert ((Z.of_nat k * n + n <? 0) = false) as -> by nia.
  replace (Z.to_nat (Z.of_nat (length lst) `min` (Z.of_nat k * n)))
    with (k * Z.to_nat n)%nat by nia.
  destruct (Z.le_gt_cases (Z.of_nat k * n + n) (Z.of_nat (length lst))).
  - f_equal. nia.
  - rewrite !take_ge; [done| |]; rewrite length_drop; nia.
Qed.

Lemma divide_chunks lst n :
  0 < n →
  Seller.divide lst n
  = inr (map (fun k => take (Z.to_nat n) (drop (k * Z.to_nat n) lst))
             (seq 0 (Z.to_nat ((Z.of_nat (length lst) + n - 1) / n)))).
Proof.
  intros Hn. unfold Seller.divide.
  rewrite range_from_zero by lia. f_equal.
  rewrite map_map. apply map_ext_in. intros k Hk%in_seq.
  apply slice_chunk; [done|].
  pose proof (ceil_bounds (Z.of_nat (length lst)) n ltac:(lia) Hn) as [? ?].
  nia.
Qed.

(** The first [c] chunks, put end to end, are the first [c * n] items. *)
Lemma concat_chunks lst (m c : nat) :
  concat (map (fun k => take m (drop (k * m) lst)) (seq 0 c))
  = take (c * m) lst.
Proof.
  induction c as [|c IH]; [done|].
  rewrite seq_S, map_app, concat_app, IH. simpl.
  rewrite app_nil_r.
  rewrite take_take_drop. f_equal. lia.
Qed.

Lemma chunk_lookup lst (m c k : nat) chunk :
  map (fun k => take m (drop (k * m) lst)) (seq 0 c) !! k = Some chunk →
  (k < c)%nat ∧ chunk = take m (drop (k * m) lst).
Proof.
  rewrite list_lookup_fmap. intros Hk.
  destruct (seq 0 c !! k) as [j|] eqn:Hj; [|done].
  apply lookup_seq in Hj as [-> ?]. simpl in Hk. by injection Hk as <-.
Qed.
End Divide.

(** C4.  For a chunk size [n > 0], [divide] does not raise and yields
    [c] chunks, where [c] is the ceiling of [len / n]
    ([n * (c - 1) < len <= n * c]); chunk number [k] is the run of at most
    [n] items that starts at position [k * n], so the chunks are contiguous,
    disjoint and in the order of the list; each holds between one and [n]
    items, each but the last exactly [n]; and put end to end they are the
    list. *)
Theorem divide_spec {A} (lst : list A) (n : Z) :
  0 < n →
  ∃ chunks,
    Seller.divide lst n = inr chunks
    ∧ concat chunks = lst
    ∧ Z.of_nat (length chunks) = (Z.of_nat (length lst) + n - 1) / n
    ∧ n * (Z.of_nat (length chunks) - 1) < Z.of_nat (length lst)
        <= n * Z.of_nat (length chunks)
    ∧ ∀ (k : nat) chunk, chunks !! k = Some chunk →
        chunk = take (Z.to_nat n) (drop (k * Z.to_nat n) lst)
        ∧ (0 < length chunk <= Z.to_nat n)%nat
        ∧ ((S k < length chunks)%nat → length chunk = Z.to_nat n).
Proof.
  intros Hn.
  pose proof (ceil_bounds (Z.of_nat (length lst)) n ltac:(lia) Hn) as [Hc Hceil].
  eexists. split; [by apply divide_chunks|].
  set (c := Z.to_nat ((Z.of_nat (length lst) + n - 1) / n)).
  assert (Z.of_nat c = (Z.of_nat (length lst) + n - 1) / n) as Hcz by lia.
  rewrite length_map, length_seq, Hcz.
  split_and!; [|done|lia|lia|].
  - rewrite concat_chunks. apply take_ge. nia.
  - intros k chunk [Hk ->]%chunk_lookup.
    rewrite length_take, length_drop. split_and!; [done|nia|nia|nia].
Qed.

Lemma divide_spec_witness :
  Seller.divide [1; 2; 3; 4; 5] 2 = inr [[1; 2]; [3; 4]; [5]].
Proof.
  destruct (divide_spec [1; 2; 3; 4; 5] 2 ltac:(lia))
    as (chunks & Hdiv & _).
  rewrite Hdiv. f_equal.
  assert (inr chunks = Seller.divide [1; 2; 3; 4; 5] 2) as Heq by done.
  vm_compute in Heq. by injection Heq.
Defined.

(** ** Running the monad *)

Section Run.
Context {Q P W : Type}.
Implicit Types (w : world Q P W) (r : loc) (l : list string).

Lemma set_heap_same w : set_heap (heap w) w = w.
Proof. by destruct w. Qed.

Lemma set_heap_twice (h1 h2 : gmap loc (list string)) w :
  set_heap h2 (set_heap h1 w) = set_heap h2 w.
Proof. done. Qed.

Lemma set_heap_insert_same w r l :
  heap w !! r = Some l → set_heap (<[r := l]> (heap w)) w = w.
Proof. intros Hl. rewrite insert_id by done. apply set_heap_same. Qed.

Lemma run_read_list w r l :
  heap w !! r = Some l → read_list r w = (inr l, w).
Proof. intros Hl. unfold read_list. by rewrite Hl. Qed.

Lemma run_list_contains w r l x :
  heap w !! r = Some l → list_contains r x w = (inr (Py.contains l x), w).
Proof.
  intros Hl. unfold list_contains, bind. by rewrite (run_read_list _ _ _ Hl).
Qed.

Lemma run_list_remove w r l x :
  heap w !! r = Some l →
  list_remove r x w
  = match Py.remove l x with
    | inr l' => (inr tt, set_heap (<[r := l']> (heap w)) w)
    | inl e => (inl e, w)
    end.
Proof.
  intros Hl. unfold list_remove, bind, lift.
  rewrite (run_read_list _ _ _ Hl). by destruct (Py.remove l x).
Qed.
End Run.

(** ** Lists of offer ids *)

Lemma filter_all {A} (P : A → Prop) `{!∀ x, Decision (P x)} (k : list A) :
  (∀ x, x ∈ k → P x) → filter P k = k.
Proof.
  induction k as [|a k IH]; [done|]. intros Hall.
  rewrite filter_cons, decide_True by (apply Hall; by left).
  f_equal. apply IH. intros x Hx. apply Hall. by right.
Qed.

Lemma filter_none {A} (P : A → Prop) `{!∀ x, Decision (P x)} (k : list A) :
  (∀ x, x ∈ k → ¬ P x) → filter P k = [].
Proof.
  induction k as [|a k IH]; [done|]. intros Hnone.
  rewrite filter_cons, decide_False by (apply Hnone; by left).
  apply IH. intros x Hx. apply Hnone. by right.
Qed.

Section Remove.
Implicit Types (l : list string) (x y : string).

Lemma contains_true l x : Py.contains l x = true ↔ x ∈ l.
Proof. unfold Py.contains. by rewrite bool_decide_eq_true. Qed.

Lemma contains_false l x : Py.contains l x = false ↔ x ∉ l.
Proof. unfold Py.contains. by rewrite bool_decide_eq_false. Qed.

(** [remove] succeeds exactly on a member, and takes one occurrence. *)
Lemma remove_elem l x : x ∈ l → ∃ l', Py.remove l x = inr l'.
Proof.
  induction l as [|y l IH]; simpl; [by intros ?%elem_of_nil|].
  intros Hx. case_bool_decide as Hy; [eauto|].
  apply elem_of_cons in Hx as [->|Hx]; [done|].
  destruct (IH Hx) as [l' ->]. eauto.
Qed.

Lemma remove_perm l x l' : Py.remove l x = inr l' → l ≡ₚ x :: l'.
Proof.
  revert l'. induction l as [|y l IH]; simpl; [done|]. intros l'.
  case_bool_decide as Hy.
  - intros [= <-]. by subst.
  - destruct (Py.remove l x) as [|l0]; [done|]. intros [= <-].
    rewrite (IH l0 eq_refl). apply Permutation_swap.
Qed.

Lemma remove_error l x e : Py.remove l x = inl e → x ∉ l.
Proof.
  intros He Hx. destruct (remove_elem l x Hx) as [l' Hl']. congruence.
Qed.

(** In a list without duplicates, [remove] leaves the other ids, in
    order. *)
Lemma remove_NoDup l x l' :
  NoDup l → Py.remove l x = inr l' → l' = filter (fun y => y ≠ x) l.
Proof.
  revert l'. induction l as [|y l IH]; simpl; [done|]. intros l' Hnd.
  apply NoDup_cons in Hnd as [Hy Hnd]. rewrite filter_cons.
  case_bool_decide as Heq.
  - intros [= <-]. subst y. rewrite decide_False by naive_solver.
    symmetry. apply filter_all. intros z Hz ->. done.
  - rewrite decide_True by done.
    destruct (Py.remove l x) as [|l0]; [done|]. intros [= <-].
    f_equal. by apply IH.
Qed.

(** Filtering out an id that is not there changes nothing. *)
Lemma filter_absent l x : x ∉ l → filter (fun y => y ≠ x) l = l.
Proof. intros Hx. apply filter_all. intros y Hy ->. done. Qed.

(** How often an id occurs after a [remove]. *)
Lemma remove_count l x l' c :
  Py.remove l x = inr l' →
  length (filter (fun y => y = c) l)
  = (length (filter (fun y => y = c) l') + (if decide (x = c) then 1 else 0))%nat.
Proof.
  intros Hperm%remove_perm.
  rewrite (Permutation_length (filter_Permutation _ _ _ Hperm)).
  rewrite filter_cons. case_decide; simpl; lia.
Qed.

Lemma count_pos_elem l c :
  (0 < length (filter (fun y => y = c) l))%nat ↔ c ∈ l.
Proof.
  split.
  - destruct (filter _ l) as [|y k] eqn:Hf; simpl; [lia|]. intros _.
    assert (y ∈ filter (fun y => y = c) l) as Hy by (rewrite Hf; by left).
    by apply list_elem_of_filter in Hy as [-> ?].
  - intros Hc.
    assert (c ∈ filter (fun y => y = c) l) as Hin
      by by apply list_elem_of_filter.
    destruct (filter _ l); [by apply elem_of_nil in Hin|simpl; lia].
Qed.
End Remove.

(** ** The stock builder *)

Lemma int_error s e : Py.int s = inl e → e = ValueError.
Proof.
  unfold Py.int. destruct (match Py.strip _ with [] => _ | _ => _ end); [|congruence].
  destruct (_ <=? _); congruence.
Qed.

Lemma stock_count_error q e :
  stock_count q = inl e ↔ malformed q ∧ e = ValueError.
Proof.
  unfold stock_count, malformed. repeat case_bool_decide; split;
    try done; try (by intros [(? & ? & ?) ?]).
  - intros He. pose proof (int_error _ _ He) as ->. done.
  - by intros [(_ & _ & ->) ->].
Qed.

Lemma filter_ext_elem {A} (P1 P2 : A → Prop)
    `{!∀ x, Decision (P1 x)} `{!∀ x, Decision (P2 x)} (k : list A) :
  (∀ x, x ∈ k → P1 x ↔ P2 x) → filter P1 k = filter P2 k.
Proof.
  induction k as [|a k IH]; [done|]. intros Hext.
  rewrite !filter_cons.
  rewrite IH by (intros x Hx; apply Hext; by right).
  destruct (decide (P1 a)) as [H1|H1], (decide (P2 a)) as [H2|H2];
    try done; exfalso; apply (Hext a (list_elem_of_here _ _)) in H1 || apply (Hext a (list_elem_of_here _ _)) in H2; done.
Qed.

Section StockPass.
Implicit Types (watch pre post : list watch) (work ids rem : list string)
  (out : list (string * Z)).

(** Every id of the list is either emitted by the first loop or left in
    the list: the loop moves ids, one occurrence at a time. *)
Lemma stock_pass_perm watch work out rem :
  stock_pass watch work = (inr out, rem) → out.*1 ++ rem ≡ₚ work.
Proof.
  revert work out. induction watch as [|w watch IH]; intros work out; simpl.
  - by intros [= <- <-].
  - destruct (Py.contains work (Kod w)); [|by apply IH].
    destruct (stock_count _) as [|n]; [done|].
    destruct (Py.remove work (Kod w)) as [|work'] eqn:Hrem; [done|].
    destruct (stock_pass watch work') as [[e|out'] rem'] eqn:Hpass; [done|].
    intros [= <- <-]. simpl.
    rewrite (IH _ _ Hpass). symmetry. by apply remove_perm.
Qed.

(** Every pair the first loop emits is the code of a record of the
    supplier with the count that the policy gives its quantity. *)
Lemma stock_pass_sound watch work out rem :
  stock_pass watch work = (inr out, rem) →
  ∀ p, p ∈ out →
    ∃ w, w ∈ watch ∧ p.1 = Kod w ∧ stock_count (Kolichestvo w) = inr p.2.
Proof.
  revert work out. induction watch as [|w watch IH]; intros work out; simpl.
  - intros [= <- <-] p Hp. by apply elem_of_nil in Hp.
  - destruct (Py.contains work (Kod w)).
    + destruct (stock_count _) as [|n] eqn:Hn; [done|].
      destruct (Py.remove work (Kod w)) as [|work']; [done|].
      destruct (stock_pass watch work') as [[e|out'] rem'] eqn:Hpass; [done|].
      intros [= <- <-] p [->|Hp]%elem_of_cons.
      * exists w. split_and!; [by left|done|done].
      * destruct (IH _ _ Hpass p Hp) as (v & Hv & ?). exists v.
        split; [by right|done].
    + intros Hpass p Hp. destruct (IH _ _ Hpass p Hp) as (v & Hv & ?).
      exists v. split; [by right|done].
Qed.

(** From a list without duplicates, the first loop leaves the ids that no
    record carries, in their order. *)
Lemma stock_pass_rem watch work out rem :
  NoDup work → stock_pass watch work = (inr out, rem) →
  rem = filter (fun id => id ∉ map Kod watch) work.
Proof.
  revert work out. induction watch as [|w watch IH]; intros work out Hnd; simpl.
  - intros [= <- <-]. symmetry. apply filter_all. intros x _. apply not_elem_of_nil.
  - destruct (Py.contains work (Kod w)) eqn:Hin.
    + destruct (stock_count _) as [|n]; [done|].
      destruct (Py.remove work (Kod w)) as [|work'] eqn:Hrem; [done|].
      destruct (stock_pass watch work') as [[e|out'] rem'] eqn:Hpass; [done|].
      intros [= <- <-].
      pose proof (remove_NoDup _ _ _ Hnd Hrem) as ->.
      rewrite (IH _ _ (NoDup_filter _ _ Hnd) Hpass), list_filter_filter.
      apply list_filter_iff. intros x. rewrite not_elem_of_cons. tauto.
    + intros Hpass. rewrite (IH _ _ Hnd Hpass).
      apply contains_false in Hin.
      apply filter_ext_elem. intros x Hx. rewrite not_elem_of_cons.
      split; [intros ?; split; [by intros ->|done]|tauto].
Qed.

(** How often a code is left in the list by the first loop: as often as
    the list held it, less the records that carried it. *)
Lemma stock_pass_count watch work out rem c :
  stock_pass watch work = (inr out, rem) →
  length (filter (fun y => y = c) rem)
  = (length (filter (fun y => y = c) work)
     - length (filter (fun v => Kod v = c) watch))%nat.
Proof.
  revert work out. induction watch as [|w watch IH]; intros work out; simpl.
  - intros [= <- <-]. simpl. lia.
  - rewrite filter_cons. destruct (Py.contains work (Kod w)) eqn:Hin.
    + destruct (stock_count _) as [|n]; [done|].
      destruct (Py.remove work (Kod w)) as [|work'] eqn:Hrem; [done|].
      destruct (stock_pass watch work') as [[e|out'] rem'] eqn:Hpass; [done|].
      intros [= <- <-]. rewrite (IH _ _ Hpass).
      rewrite (remove_count _ _ _ c Hrem). case_decide; simpl; lia.
    + intros Hpass. rewrite (IH _ _ Hpass).
      apply contains_false in Hin. case_decide as Hc; [|done]. subst c.
      assert (length (filter (fun y => y = Kod w) work) = 0%nat) as ->; [|done].
      destruct (decide (0 < length (filter (fun y => y = Kod w) work))%nat)
        as [Hpos%count_pos_elem|]; [done|lia].
Qed.

(** The first loop over two lists of records, one after the other. *)
Lemma stock_pass_app pre post work :
  stock_pass (pre ++ post) work
  = match stock_pass pre work with
    | (inr out1, rem1) =>
        match stock_pass post rem1 with
        | (inr out2, rem2) => (inr (out1 ++ out2), rem2)
        | (inl e, rem2) => (inl e, rem2)
        end
    | (inl e, rem1) => (inl e, rem1)
    end.
Proof.
  revert work. induction pre as [|w pre IH]; intros work; simpl.
  - by destruct (stock_pass post work) as [[?|?] ?].
  - destruct (Py.contains work (Kod w)); [|by apply IH].
    destruct (stock_count _) as [|n]; [done|].
    destruct (Py.remove work (Kod w)) as [|work']; [done|].
    rewrite IH. destruct (stock_pass pre work') as [[?|out1] rem1]; [done|].
    by destruct (stock_pass post rem1) as [[?|?] ?].
Qed.

(** A record is matched when its code is in the list that the records
    before it have left. *)
Lemma matched_elem ids pre w out rem :
  stock_pass pre ids = (inr out, rem) → matched ids pre w ↔ Kod w ∈ rem.
Proof.
  intros Hpass. rewrite <- count_pos_elem, (stock_pass_count _ _ _ _ _ Hpass).
  unfold matched. lia.
Qed.

(** The first loop raises at the first matched record whose quantity is
    malformed, and only there. *)
Lemma stock_pass_raises watch ids e rem :
  stock_pass watch ids = (inl e, rem) →
  e = ValueError
  ∧ ∃ pre w post,
      watch = pre ++ w :: post ∧ matched ids pre w
      ∧ malformed (Kolichestvo w).
Proof.
  revert ids. induction watch as [|w watch IH]; intros ids; simpl; [done|].
  destruct (Py.contains ids (Kod w)) eqn:Hin.
  - destruct (stock_count _) as [e'|n] eqn:Hn.
    + intros [= -> <-]. apply stock_count_error in Hn as [Hbad ->].
      split; [done|]. exists [], w, watch. split_and!; [done| |done].
      apply (matched_elem ids [] w [] ids eq_refl). by apply contains_true.
    + destruct (Py.remove ids (Kod w)) as [|work'] eqn:Hrem.
      { apply remove_error in Hrem. by apply contains_true in Hin. }
      destruct (stock_pass watch work') as [[e'|out'] rem'] eqn:Hpass; [|done].
      intros [= -> <-].
      destruct (IH _ Hpass) as (-> & pre & v & post & -> & Hm & Hbad).
      split; [done|]. exists (w :: pre), v, post. split_and!; [done| |done].
      unfold matched in *. rewrite filter_cons.
      rewrite (remove_count _ _ _ (Kod v) Hrem).
      repeat case_decide; simpl; try lia; congruence.
  - intros Hpass.
    destruct (IH _ Hpass) as (-> & pre & v & post & -> & Hm & Hbad).
    split; [done|]. exists (w :: pre), v, post. split_and!; [done| |done].
    unfold matched in *. rewrite filter_cons. case_decide as Hc; [|done].
    exfalso. apply contains_false in Hin. rewrite Hc in Hin.
    apply Hin, count_pos_elem. lia.
Qed.

(** The converse: a matched record with a malformed quantity makes the
    first loop raise. *)
Lemma stock_pass_malformed pre w post ids :
  matched ids pre w → malformed (Kolichestvo w) →
  ∃ rem, stock_pass (pre ++ w :: post) ids = (inl ValueError, rem).
Proof.
  intros Hm Hbad. rewrite stock_pass_app.
  destruct (stock_pass pre ids) as [[e|out1] rem1] eqn:Hpre.
  - apply stock_pass_raises in Hpre as [-> _]. eauto.
  - apply (matched_elem _ _ _ _ _ Hpre), contains_true in Hm. simpl.
    rewrite Hm.
    assert (stock_count (Kolichestvo w) = inl ValueError) as ->
      by by apply stock_count_error.
    eauto.
Qed.

(** A matched record with a well-formed quantity is emitted with the count
    of the policy, if the loop returns at all. *)
Lemma stock_pass_matched pre w post ids out rem :
  matched ids pre w →
  stock_pass (pre ++ w :: post) ids = (inr out, rem) →
  ∃ n, stock_count (Kolichestvo w) = inr n ∧ (Kod w, n) ∈ out.
Proof.
  intros Hm. rewrite stock_pass_app.
  destruct (stock_pass pre ids) as [[e|out1] rem1] eqn:Hpre; [done|].
  apply (matched_elem _ _ _ _ _ Hpre), contains_true in Hm. simpl.
  rewrite Hm. destruct (stock_count _) as [|n]; [done|].
  destruct (Py.remove rem1 (Kod w)) as [|work']; [done|].
  destruct (stock_pass post work') as [[?|out2] rem2]; [done|].
  intros [= <- <-]. exists n. split; [done|].
  apply elem_of_app. right. by left.
Qed.
End StockPass.

(** ** The embedded builders compute these functions *)

Section Refinement.
Context {Q P W R : Type} (mk : string * Z -> R).
Implicit Types (w : world Q P W) (r : loc) (ids : list string).

Lemma run_stock_loop watch r acc ids w :
  heap w !! r = Some ids →
  for_loop watch (fun watch stocks =>
    let* known := list_contains r (Kod watch) in
    if known : bool then
      let count := Kolichestvo watch in
      let* stock :=
        if bool_decide (count = ">10") then ret 100
        else if bool_decide (count = "1") then ret 0
        else lift (Py.int (Kolichestvo watch)) in
      let stocks := stocks ++ [mk (Kod watch, stock)] in
      let* _ := list_remove r (Kod watch) in
      ret stocks
    else ret stocks) acc w
  = (match (stock_pass watch ids).1 with
     | inr out => inr (acc ++ map mk out)
     | inl e => inl e
     end,
     set_heap (<[r := (stock_pass watch ids).2]> (heap w)) w).
Proof.
  revert acc ids w. induction watch as [|v watch IH]; intros acc ids w Hids.
  - simpl. unfold ret. by rewrite app_nil_r, set_heap_insert_same.
  - cbn [for_loop stock_pass]. unfold bind at 1 2.
    rewrite (run_list_contains _ _ _ _ Hids).
    destruct (Py.contains ids (Kod v)).
    + unfold stock_count.
      assert (∀ (c : exn + Z) k,
        bind (Q:=Q) (P:=P) (W:=W) (B:=list R) (lift c) k w
        = match c with inr n => k n w | inl e => (inl e, w) end) as Hlift
        by (intros [?|?] ?; done).
      assert ((if bool_decide (Kolichestvo v = ">10") then ret 100
               else if bool_decide (Kolichestvo v = "1") then ret 0
               else lift (Py.int (Kolichestvo v)))
              = lift (Q:=Q) (P:=P) (W:=W)
                  (if bool_decide (Kolichestvo v = ">10") then inr 100
                   else if bool_decide (Kolichestvo v = "1") then inr 0
                   else Py.int (Kolichestvo v))) as ->
        by (by repeat case_bool_decide).
      rewrite Hlift.
      destruct (if bool_decide (Kolichestvo v = ">10") then _ else _)
        as [e|n]; simpl.
      { by rewrite set_heap_insert_same. }
      unfold bind at 1. rewrite (run_list_remove _ _ _ _ Hids).
      destruct (Py.remove ids (Kod v)) as [e|ids']; simpl.
      { by rewrite set_heap_insert_same. }
      unfold ret at 1. rewrite (IH _ ids').
      2:{ apply lookup_insert_eq. }
      simpl. rewrite insert_insert_eq, set_heap_twice.
      destruct (stock_pass watch ids') as [[e|out] rem]; simpl; [done|].
      by rewrite <- app_assoc.
    + unfold ret at 1. by apply IH.
Qed.

Lemma run_zero_loop (remaining : list string) acc w :
  for_loop remaining (fun offer_id stocks =>
    ret (stocks ++ [mk (offer_id, 0)])) acc w
  = (inr (acc ++ map mk (map (fun id => (id, 0)) remaining)), w).
Proof.
  revert acc. induction remaining as [|id remaining IH]; intros acc; simpl.
  - unfold ret. by rewrite app_nil_r.
  - unfold bind, ret at 1. rewrite IH. by rewrite <- app_assoc.
Qed.

(** A run of [create_stocks] on the list object [r] that holds [ids]:
    the result is that of [stocks_of], and [r] is the one object that
    changes. *)
Lemma run_create_stocks_with watch r ids w :
  heap w !! r = Some ids →
  create_stocks_with mk watch r w
  = (match (stocks_of watch ids).1 with
     | inr out => inr (map mk out)
     | inl e => inl e
     end,
     set_heap (<[r := (stocks_of watch ids).2]> (heap w)) w).
Proof.
  intros Hids. unfold create_stocks_with, stocks_of, bind at 1.
  rewrite (run_stock_loop _ _ _ _ _ Hids).
  destruct (stock_pass watch ids) as [[e|out] rem]; simpl; [done|].
  unfold bind. rewrite (run_read_list _ _ rem) by apply lookup_insert_eq.
  rewrite run_zero_loop. by rewrite map_app.
Qed.
End Refinement.

Lemma seller_create_stocks_with watch r :
  Seller.create_stocks watch r = create_stocks_with seller_stock watch r.
Proof. reflexivity. Qed.

Lemma market_create_stocks_with watch r warehouse_id w :
  Market.create_stocks watch r warehouse_id w
  = create_stocks_with
      (market_stock warehouse_id (String.app (clock w 0%nat) "Z")) watch r
      (tick w).
Proof. reflexivity. Qed.

Section Prices.
Implicit Types (remnants : list watch) (r : loc) (ids : list string).

Lemma run_seller_price_loop remnants r ids acc
    (w : world Seller.request Seller.page watch) :
  heap w !! r = Some ids →
  for_loop remnants (fun watch prices =>
    let* known := list_contains r (Kod watch) in
    if known : bool then
      let price := Seller.Price "UNKNOWN" "RUB" (Kod watch) "0"
                     (Seller.price_conversion (Tsena watch)) in
      ret (prices ++ [price])
    else ret prices) acc w
  = (inr (acc ++ seller_prices remnants ids), w).
Proof.
  intros Hids. revert acc. unfold seller_prices.
  induction remnants as [|v remnants IH]; intros acc; simpl.
  - unfold ret. by rewrite app_nil_r.
  - unfold bind at 1 2. rewrite (run_list_contains _ _ _ _ Hids).
    rewrite filter_cons. unfold Py.contains, ret at 1.
    case_bool_decide as Hin.
    + rewrite decide_True by done. rewrite IH. simpl. by rewrite <- app_assoc.
    + rewrite decide_False by done. apply IH.
Qed.

(** [create_prices] of seller.py returns [seller_prices] and changes
    nothing. *)
Lemma run_seller_create_prices remnants r ids w :
  heap w !! r = Some ids →
  Seller.create_prices remnants r w = (inr (seller_prices remnants ids), w).
Proof. intros Hids. unfold Seller.create_prices. by rewrite (run_seller_price_loop _ _ ids). Qed.

Lemma run_market_price_loop remnants r ids acc
    (w : world Market.request Market.page watch) :
  heap w !! r = Some ids →
  for_loop remnants (fun watch prices =>
    let* known := list_contains r (Kod watch) in
    if known : bool then
      let* value := lift (Py.int (Seller.price_conversion (Tsena watch))) in
      let price := Market.Price (Kod watch) (Market.PriceValue value "RUR") in
      ret (prices ++ [price])
    else ret prices) acc w
  = (match market_prices remnants ids with
     | inr out => inr (acc ++ out)
     | inl e => inl e
     end, w).
Proof.
  intros Hids. revert acc.
  induction remnants as [|v remnants IH]; intros acc; simpl.
  - unfold ret. by rewrite app_nil_r.
  - unfold bind at 1 2. rewrite (run_list_contains _ _ _ _ Hids).
    destruct (Py.contains ids (Kod v)); [|by apply IH].
    unfold bind at 1, lift.
    destruct (Py.int _) as [e|n]; [done|].
    unfold ret at 1. rewrite IH.
    destruct (market_prices remnants ids) as [e|out]; [done|].
    by rewrite <- app_assoc.
Qed.

(** [create_prices] of market.py returns [market_prices] and changes
    nothing, also when it raises. *)
Lemma run_market_create_prices remnants r ids w :
  heap w !! r = Some ids →
  Market.create_prices remnants r w = (market_prices remnants ids, w).
Proof.
  intros Hids. unfold Market.create_prices.
  rewrite (run_market_price_loop _ _ ids) by done.
  by destruct (market_prices remnants ids).
Qed.
End Prices.

(** ** The stock list covers the known offers *)

Lemma map_fmap {A B} (f : A → B) (l : list A) : map f l = f <$> l.
Proof. done. Qed.

Lemma stock_count_policy q n : stock_count q = inr n ↔ stock_policy q n.
Proof.
  unfold stock_count, stock_policy. repeat case_bool_decide; subst.
  - split; [intros [= <-]; by left|]. intros [[_ ->]|[[? _]|(? & _)]]; done.
  - split; [intros [= <-]; right; by left|].
    intros [[? _]|[[_ ->]|(_ & ? & _)]]; done.
  - split; [intros ?; right; by right|]. intros [[? _]|[[? _]|(_ & _ & ?)]]; done.
Qed.

Section Covers.
Implicit Types (remnants : list watch) (ids rem : list string)
  (out pairs : list (string * Z)).

(** The ids of the whole stock list are the known ids, each as often as
    the list held it. *)
Lemma stocks_of_perm remnants ids pairs rem :
  stocks_of remnants ids = (inr pairs, rem) → map fst pairs ≡ₚ ids.
Proof.
  unfold stocks_of.
  destruct (stock_pass remnants ids) as [[e|out] rem'] eqn:Hpass; [done|].
  intros [= <- <-]. rewrite map_app, map_map. simpl. rewrite map_id.
  apply (stock_pass_perm _ _ _ _ Hpass).
Qed.

Lemma stocks_of_covers remnants ids pairs rem :
  NoDup ids → stocks_of remnants ids = (inr pairs, rem) →
  covers (map Kod remnants) ids pairs
  ∧ rem = filter (fun id => id ∉ map Kod remnants) ids.
Proof.
  intros Hnd Hof. pose proof (stocks_of_perm _ _ _ _ Hof) as Hperm.
  unfold stocks_of in Hof.
  destruct (stock_pass remnants ids) as [[e|out] rem'] eqn:Hpass; [done|].
  injection Hof as <- <-.
  pose proof (stock_pass_rem _ _ _ _ Hnd Hpass) as Hrem.
  pose proof (stock_pass_sound _ _ _ _ Hpass) as Hsound.
  assert (∀ id, id ∈ rem' ↔ id ∈ ids ∧ id ∉ map Kod remnants) as Hleft.
  { intros id. rewrite Hrem, list_elem_of_filter. tauto. }
  split; [|done]. unfold covers. split_and!.
  - intros id. rewrite Hperm. 
    destruct (decide (id ∈ map Kod remnants)); tauto.
  - intros id Hid Hno. apply elem_of_app. right.
    rewrite map_fmap. apply list_elem_of_fmap. exists id.
    split; [done|]. by apply Hleft.
  - intros id n [Hin|Hin]%elem_of_app Hno.
    + destruct (Hsound _ Hin) as (v & Hv & Hid & _). simpl in Hid.
      exfalso. apply Hno. rewrite map_fmap. apply list_elem_of_fmap. eauto.
    + rewrite map_fmap in Hin. apply list_elem_of_fmap in Hin as (? & [= _ ->] & _).
      done.
  - by rewrite Hperm.
  - intros id. by rewrite Hperm.
Qed.

(** A list that holds none of the codes goes through the first loop
    untouched. *)
Lemma stock_pass_none remnants rem :
  (∀ v, v ∈ remnants → Kod v ∉ rem) → stock_pass remnants rem = (inr [], rem).
Proof.
  induction remnants as [|v remnants IH]; intros Hno; simpl; [done|].
  assert (Py.contains rem (Kod v) = false) as ->.
  { apply contains_false, Hno. by left. }
  apply IH. intros u Hu. apply Hno. by right.
Qed.
End Covers.

Section Returns.
Context {Q P W R : Type} (mk : string * Z -> R).
Implicit Types (w : world Q P W) (r : loc) (ids : list string).

(** A run of [create_stocks] that returns. *)
Lemma create_stocks_with_returns remnants r ids w stocks w' :
  heap w !! r = Some ids →
  create_stocks_with mk remnants r w = (inr stocks, w') →
  ∃ pairs rem,
    stocks_of remnants ids = (inr pairs, rem)
    ∧ stocks = map mk pairs
    ∧ w' = set_heap (<[r := rem]> (heap w)) w.
Proof.
  intros Hids. rewrite (run_create_stocks_with _ _ _ _ _ Hids).
  destruct (stocks_of remnants ids) as [[e|pairs] rem]; simpl; [done|].
  intros [= <- <-]. eauto.
Qed.

(** A run of [create_stocks] that raises. *)
Lemma create_stocks_with_raises remnants r ids w e :
  heap w !! r = Some ids →
  (create_stocks_with mk remnants r w).1 = inl e ↔
  ∃ rem, stock_pass remnants ids = (inl e, rem).
Proof.
  intros Hids. rewrite (run_create_stocks_with _ _ _ _ _ Hids).
  unfold stocks_of.
  destruct (stock_pass remnants ids) as [[e'|pairs] rem]; simpl.
  - split; [intros [= ->]; eauto|]. by intros (? & [= -> _]).
  - split; [done|]. by intros (? & ?).
Qed.
End Returns.

Section StocksRaise.
Context {Q P W R : Type} (mk : string * Z -> R).

Lemma create_stocks_with_raises_when remnants ids r (w : world Q P W) :
  heap w !! r = Some ids →
  raises_exactly_when (create_stocks_with mk remnants r w).1
    (∃ pre v post,
        remnants = pre ++ v :: post ∧ matched ids pre v
        ∧ malformed (Kolichestvo v)).
Proof.
  intros Hids. split.
  - rewrite (create_stocks_with_raises _ _ _ _ _ _ Hids). split.
    + intros [rem Hpass]. by apply stock_pass_raises in Hpass as [_ ?].
    + intros (pre & v & post & -> & Hm & Hbad).
      by apply stock_pass_malformed.
  - intros e [rem Hpass]%(create_stocks_with_raises _ _ _ _ _ _ Hids).
    by apply stock_pass_raises in Hpass as [? _].
Qed.
End StocksRaise.

(** A builder that raises in no case but [cond] returns when [cond] does
    not hold. *)
Lemma returns_unless {A} (res : exn + A) (cond : Prop) :
  raises_exactly_when res cond → ¬ cond → ∃ a, res = inr a.
Proof.
  intros [Hiff Honly] Hno. destruct res as [e|a]; [|eauto].
  destruct Hno. apply Hiff. f_equal. by apply Honly.
Qed.

(** C1 (amended: the offer-id list has no duplicates).  When the list of
    known offer ids holds no id twice, the stock list that [create_stocks]
    returns covers the known ids: its ids are the codes of the supplier that
    are known together with the known ids that no record of the supplier
    carries, the latter with stock 0; no id comes twice and none is outside
    the known ones.  This holds for seller.py and for market.py, whose
    records carry the same (offer id, count) pairs.  Whatever the list, the
    ids of the stock list are the known ids, each as often as the list holds
    it.  And the ids ["A"], ["B"], ["C"] with the records (["A"], [">10"])
    and (["B"], ["1"]) give A:100, B:0, C:0. *)
Theorem create_stocks_covers :
  (∀ remnants ids, NoDup ids →
     (∀ (w : world Seller.request Seller.page watch) r stocks w',
        heap w !! r = Some ids →
        Seller.create_stocks remnants r w = (inr stocks, w') →
        ∃ pairs, stocks = map seller_stock pairs
                 ∧ covers (map Kod remnants) ids pairs)
     ∧ (∀ (w : world Market.request Market.page watch) r warehouse_id stocks w',
        heap w !! r = Some ids →
        Market.create_stocks remnants r warehouse_id w = (inr stocks, w') →
        ∃ pairs,
          stocks
          = map (market_stock warehouse_id (String.app (clock w 0%nat) "Z")) pairs
          ∧ covers (map Kod remnants) ids pairs))
  ∧ (∀ remnants ids (w : world Seller.request Seller.page watch) r stocks w',
       heap w !! r = Some ids →
       Seller.create_stocks remnants r w = (inr stocks, w') →
       map Seller.offer_id stocks ≡ₚ ids)
  ∧ (∀ (w : world Seller.request Seller.page watch) r price_a price_b,
       heap w !! r = Some ["A"; "B"; "C"] →
       (Seller.create_stocks
          [Watch "A" ">10" price_a; Watch "B" "1" price_b] r w).1
       = inr [Seller.Stock "A" 100; Seller.Stock "B" 0; Seller.Stock "C" 0]).
Proof.
  split_and!.
  - intros remnants ids Hnd. split.
    + intros w r stocks w' Hids Hrun.
      rewrite seller_create_stocks_with in Hrun.
      apply (create_stocks_with_returns _ _ _ _ _ _ _ Hids) in Hrun
        as (pairs & rem & Hof & -> & _).
      exists pairs. split; [done|]. by apply (stocks_of_covers _ _ _ _ Hnd Hof).
    + intros w r warehouse_id stocks w' Hids Hrun.
      rewrite market_create_stocks_with in Hrun.
      apply (create_stocks_with_returns _ _ _ _ (tick w) _ _ Hids) in Hrun
        as (pairs & rem & Hof & -> & _).
      exists pairs. split; [done|]. by apply (stocks_of_covers _ _ _ _ Hnd Hof).
  - intros remnants ids w r stocks w' Hids Hrun.
    rewrite seller_create_stocks_with in Hrun.
    apply (create_stocks_with_returns _ _ _ _ _ _ _ Hids) in Hrun
      as (pairs & rem & Hof & -> & _).
    rewrite map_map. apply (stocks_of_perm _ _ _ _ Hof).
  - intros w r price_a price_b Hids.
    rewrite seller_create_stocks_with, (run_create_stocks_with _ _ _ _ _ Hids).
    reflexivity.
Qed.

Lemma create_stocks_covers_witness :
  ∃ pairs,
    [Seller.Stock "A" 100; Seller.Stock "B" 0; Seller.Stock "C" 0]
    = map seller_stock pairs
    ∧ covers ["A"; "B"] ["A"; "B"; "C"] pairs.
Proof.
  assert (NoDup ["A"; "B"; "C"]) as Hnd by (by apply (bool_decide_unpack _)).
  destruct create_stocks_covers as [Hcov _].
  destruct (Hcov [Watch "A" ">10" ""; Watch "B" "1" ""] ["A"; "B"; "C"] Hnd)
    as [Hseller _].
  apply (Hseller (seller_world ["A"; "B"; "C"]) 1%positive _
           (set_heap {[ 1%positive := ["C"] ]} (seller_world ["A"; "B"; "C"]))).
  - reflexivity.
  - by vm_compute.
Defined.

(** C1, as stated, fails on a list of known ids that holds an id twice: the
    record of the supplier takes one occurrence, the other is emitted with
    stock 0, and the id is in the stock list twice. *)
Lemma create_stocks_duplicate_ids :
  ∃ w',
    Seller.create_stocks [Watch "A" "5" "1.00"] 1%positive (seller_world ["A"; "A"])
    = (inr [Seller.Stock "A" 5; Seller.Stock "A" 0], w')
    ∧ ¬ NoDup (map Seller.offer_id [Seller.Stock "A" 5; Seller.Stock "A" 0]).
Proof.
  eexists. split; [by vm_compute|].
  by apply (bool_decide_unpack _).
Qed.

(** A record whose code is known, and which is the first to carry it, is
    matched. *)
Lemma first_record_matched ids pre v :
  Kod v ∈ ids → Kod v ∉ map Kod pre → matched ids pre v.
Proof.
  intros Hin Hfirst. unfold matched.
  apply count_pos_elem in Hin.
  assert (filter (fun u => Kod u = Kod v) pre = []) as ->; [|done].
  apply filter_none. intros u Hu Heq. apply Hfirst.
  rewrite map_fmap, <- Heq. apply list_elem_of_fmap. eauto.
Qed.

(** [matched] is the test of the code: a record is matched exactly when its
    code is in the list that [create_stocks] leaves once it has gone through
    the records before it. *)
Lemma matched_after_prefix ids pre v r stocks
    (w w' : world Seller.request Seller.page watch) :
  heap w !! r = Some ids →
  Seller.create_stocks pre r w = (inr stocks, w') →
  ∃ rem, heap w' !! r = Some rem ∧ (matched ids pre v ↔ Kod v ∈ rem).
Proof.
  intros Hids Hrun. rewrite seller_create_stocks_with in Hrun.
  apply (create_stocks_with_returns _ _ _ _ _ _ _ Hids) in Hrun
    as (pairs & rem & Hof & _ & ->).
  exists rem. split; [apply lookup_insert_eq|].
  unfold stocks_of in Hof.
  destruct (stock_pass pre ids) as [[e|out] rem'] eqn:Hpass; [done|].
  injection Hof as _ <-. by apply (matched_elem _ _ _ _ _ Hpass).
Qed.

(** C3 (amended: the record's code is in the offer-id list when the loop
    reaches it).  [create_stocks] takes each id out of the list as it emits
    a record for it, so the known ids are what the list holds when the loop
    reaches a record: [matched].  A matched record is emitted with the count
    of the policy: 100 for [">10"], 0 for ["1"], the parsed integer
    otherwise.  So in seller.py and in market.py, where the record is dated
    with the reading of the clock.  [create_stocks] does return, in both
    files, when no matched record has a quantity that the policy cannot
    take.  A record whose code is in the list given to [create_stocks], and
    which is the first to carry it, is matched.  And the ids ["X"], ["Y"]
    with the one record (["X"], ["5"]) give X:5, Y:0, in both files. *)
Theorem create_stocks_policy :
  (∀ pre v post ids, matched ids pre v →
     (∀ (w : world Seller.request Seller.page watch) r stocks w',
        heap w !! r = Some ids →
        Seller.create_stocks (pre ++ v :: post) r w = (inr stocks, w') →
        ∃ n, stock_policy (Kolichestvo v) n
             ∧ Seller.Stock (Kod v) n ∈ stocks)
     ∧ (∀ (w : world Market.request Market.page watch) r warehouse_id stocks w',
        heap w !! r = Some ids →
        Market.create_stocks (pre ++ v :: post) r warehouse_id w = (inr stocks, w') →
        ∃ n, stock_policy (Kolichestvo v) n
             ∧ Market.Stock (Kod v) warehouse_id
                 [Market.Item n "FIT" (String.app (clock w 0%nat) "Z")] ∈ stocks))
  ∧ (∀ remnants ids,
       (∀ pre v post, remnants = pre ++ v :: post → matched ids pre v →
          ¬ malformed (Kolichestvo v)) →
       (∀ (w : world Seller.request Seller.page watch) r,
          heap w !! r = Some ids →
          ∃ stocks, (Seller.create_stocks remnants r w).1 = inr stocks)
       ∧ (∀ (w : world Market.request Market.page watch) r warehouse_id,
            heap w !! r = Some ids →
            ∃ stocks,
              (Market.create_stocks remnants r warehouse_id w).1 = inr stocks))
  ∧ (∀ ids pre v, Kod v ∈ ids → Kod v ∉ map Kod pre → matched ids pre v)
  ∧ (∀ (w : world Seller.request Seller.page watch) r price,
       heap w !! r = Some ["X"; "Y"] →
       (Seller.create_stocks [Watch "X" "5" price] r w).1
       = inr [Seller.Stock "X" 5; Seller.Stock "Y" 0])
  ∧ (∀ (w : world Market.request Market.page watch) r warehouse_id price,
       heap w !! r = Some ["X"; "Y"] →
       (Market.create_stocks [Watch "X" "5" price] r warehouse_id w).1
       = inr [Market.Stock "X" warehouse_id
                [Market.Item 5 "FIT" (String.app (clock w 0%nat) "Z")];
              Market.Stock "Y" warehouse_id
                [Market.Item 0 "FIT" (String.app (clock w 0%nat) "Z")]]).
Proof.
  split_and!.
  - intros pre v post ids Hm.
    assert (∀ pairs rem,
      stocks_of (pre ++ v :: post) ids = (inr pairs, rem) →
      ∃ n, stock_policy (Kolichestvo v) n ∧ (Kod v, n) ∈ pairs) as Hpairs.
    { intros pairs rem. unfold stocks_of.
      destruct (stock_pass _ ids) as [[e|out] rem'] eqn:Hpass; [done|].
      intros [= <- <-].
      destruct (stock_pass_matched _ _ _ _ _ _ Hm Hpass) as (n & Hn & Hin).
      exists n. split; [by apply stock_count_policy|].
      apply elem_of_app. by left. }
    split.
    + intros w r stocks w' Hids Hrun.
      rewrite seller_create_stocks_with in Hrun.
      apply (create_stocks_with_returns _ _ _ _ _ _ _ Hids) in Hrun
        as (pairs & rem & Hof & -> & _).
      destruct (Hpairs _ _ Hof) as (n & Hn & Hin). exists n. split; [done|].
      rewrite map_fmap. apply list_elem_of_fmap. by exists (Kod v, n).
    + intros w r warehouse_id stocks w' Hids Hrun.
      rewrite market_create_stocks_with in Hrun.
      apply (create_stocks_with_returns _ _ _ _ (tick w) _ _ Hids) in Hrun
        as (pairs & rem & Hof & -> & _).
      destruct (Hpairs _ _ Hof) as (n & Hn & Hin). exists n. split; [done|].
      rewrite map_fmap. apply list_elem_of_fmap. by exists (Kod v, n).
  - intros remnants ids Hwell.
    assert (¬ ∃ pre v post,
              remnants = pre ++ v :: post ∧ matched ids pre v
              ∧ malformed (Kolichestvo v)) as Hno.
    { intros (pre & v & post & Hsplit & Hm & Hbad). by eapply Hwell. }
    split.
    + intros w r Hids. rewrite seller_create_stocks_with.
      by eapply returns_unless; [apply create_stocks_with_raises_when|].
    + intros w r warehouse_id Hids. rewrite market_create_stocks_with.
      eapply returns_unless; [|done].
      by apply (create_stocks_with_raises_when _ _ _ _ (tick w)).
  - apply first_record_matched.
  - intros w r price Hids.
    rewrite seller_create_stocks_with, (run_create_stocks_with _ _ _ _ _ Hids).
    reflexivity.
  - intros w r warehouse_id price Hids.
    rewrite market_create_stocks_with,
      (run_create_stocks_with _ _ _ _ (tick w) Hids).
    reflexivity.
Qed.

Lemma create_stocks_policy_witness :
  (∃ n, stock_policy "12" n
        ∧ Seller.Stock "Y" n
            ∈ [Seller.Stock "X" 100; Seller.Stock "Y" 12; Seller.Stock "Z" 0])
  ∧ (∃ n, stock_policy "12" n
          ∧ Market.Stock "Y" "W" [Market.Item n "FIT" "2024-01-01T00:00:00Z"]
              ∈ [Market.Stock "X" "W" [Market.Item 100 "FIT" "2024-01-01T00:00:00Z"];
                 Market.Stock "Y" "W" [Market.Item 12 "FIT" "2024-01-01T00:00:00Z"];
                 Market.Stock "Z" "W" [Market.Item 0 "FIT" "2024-01-01T00:00:00Z"]])
  ∧ (Market.create_stocks [Watch "X" "5" "100.00 руб."] 1%positive "W"
       (market_world ["X"; "Y"]
          (readings ["2024-01-01T00:00:00"] "2024-01-01T00:00:07"))).1
    = inr [Market.Stock "X" "W" [Market.Item 5 "FIT" "2024-01-01T00:00:00Z"];
           Market.Stock "Y" "W" [Market.Item 0 "FIT" "2024-01-01T00:00:00Z"]].
Proof.
  destruct create_stocks_policy as (Hpol & _ & _ & _ & Hmarket).
  destruct (Hpol [Watch "X" ">10" "1.00"; Watch "Q" "7" "2.00"]
              (Watch "Y" "12" "3.00") [] ["X"; "Y"; "Z"]) as [Hseller Hm].
  { unfold matched. vm_compute. lia. }
  split_and!.
  - apply (Hseller (seller_world ["X"; "Y"; "Z"]) 1%positive _
             (set_heap {[ 1%positive := ["Z"] ]} (seller_world ["X"; "Y"; "Z"]))).
    + reflexivity.
    + by vm_compute.
  - apply (Hm (market_world ["X"; "Y"; "Z"]
                 (readings ["2024-01-01T00:00:00"] "2024-01-01T00:00:07"))
             1%positive "W" _
             (set_heap {[ 1%positive := ["Z"] ]}
                (tick (market_world ["X"; "Y"; "Z"]
                         (readings ["2024-01-01T00:00:00"]
                            "2024-01-01T00:00:07"))))).
    + reflexivity.
    + by vm_compute.
  - by apply Hmarket.
Defined.

(** C3, as stated, fails when the supplier's file repeats a code: the
    second record's code is among the known offer ids, ["X"], and its
    quantity ["7"] is an integer, yet [create_stocks] computes no count for
    it, in either file: the first record has taken ["X"] out of the list. *)
Lemma create_stocks_repeated_code :
  let remnants := [Watch "X" "5" "1.00"; Watch "X" "7" "2.00"] in
  Kod (Watch "X" "7" "2.00") ∈ ["X"]
  ∧ stock_policy (Kolichestvo (Watch "X" "7" "2.00")) 7
  ∧ (Seller.create_stocks remnants 1%positive (seller_world ["X"])).1
    = inr [Seller.Stock "X" 5]
  ∧ (Seller.Stock "X" 7 ∉ [Seller.Stock "X" 5])
  ∧ (Market.create_stocks remnants 1%positive "W"
       (market_world ["X"] (always "2024-01-01T00:00:00"))).1
    = inr [Market.Stock "X" "W" [Market.Item 5 "FIT" "2024-01-01T00:00:00Z"]]
  ∧ ¬ matched ["X"] [Watch "X" "5" "1.00"] (Watch "X" "7" "2.00").
Proof.
  split_and!.
  - by left.
  - right. right. by vm_compute.
  - by vm_compute.
  - by intros [[=]|[]%elem_of_nil]%elem_of_cons.
  - by vm_compute.
  - unfold matched. vm_compute. lia.
Qed.

(** ** What the builders do to the offer-id list *)

Lemma seller_create_prices_frame remnants r
    (w : world Seller.request Seller.page watch) :
  (Seller.create_prices remnants r w).2 = w.
Proof.
  destruct (heap w !! r) as [ids|] eqn:Hids.
  - by rewrite (run_seller_create_prices _ _ _ _ Hids).
  - destruct remnants as [|v remnants]; [done|].
    unfold Seller.create_prices. simpl.
    unfold bind, list_contains, bind, read_list. by rewrite Hids.
Qed.

Lemma market_create_prices_frame remnants r
    (w : world Market.request Market.page watch) :
  (Market.create_prices remnants r w).2 = w.
Proof.
  destruct (heap w !! r) as [ids|] eqn:Hids.
  - by rewrite (run_market_create_prices _ _ _ _ Hids).
  - destruct remnants as [|v remnants]; [done|].
    unfold Market.create_prices. simpl.
    unfold bind, list_contains, bind, read_list. by rewrite Hids.
Qed.

(** After [create_stocks] has returned on a list without duplicates, the
    list holds no code of the supplier, and [create_prices], given the same
    list object, finds no record to price. *)
Lemma prices_after_stocks remnants ids r stocks
    (w w' : world Seller.request Seller.page watch) :
  NoDup ids → heap w !! r = Some ids →
  Seller.create_stocks remnants r w = (inr stocks, w') →
  Seller.create_prices remnants r w' = (inr [], w').
Proof.
  intros Hnd Hids Hrun. rewrite seller_create_stocks_with in Hrun.
  apply (create_stocks_with_returns _ _ _ _ _ _ _ Hids) in Hrun
    as (pairs & rem & Hof & -> & ->).
  apply (stocks_of_covers _ _ _ _ Hnd) in Hof as [_ ->].
  rewrite (run_seller_create_prices _ _ (filter (fun id => id ∉ map Kod remnants) ids))
    by apply lookup_insert_eq.
  do 2 f_equal. unfold seller_prices.
  rewrite filter_none; [done|].
  intros v Hv [Hno _]%list_elem_of_filter. apply Hno.
  rewrite map_fmap. apply list_elem_of_fmap. eauto.
Qed.

(** C9 (amended: the offer-id list has no duplicates).  [create_stocks]
    consumes the caller's list: when the list holds no id twice, then after
    [create_stocks] has returned the list object holds exactly the known ids
    that no record of the supplier carries, in their order, and nothing else
    of the world has changed; every known id is in the stock list once, so
    none is emitted twice.  [create_prices] leaves the world, and with it
    its list argument, as it found it. *)
Theorem create_stocks_consumes :
  (∀ remnants ids (w : world Seller.request Seller.page watch) r stocks w',
     NoDup ids →
     heap w !! r = Some ids →
     Seller.create_stocks remnants r w = (inr stocks, w') →
     w' = set_heap
            (<[r := filter (fun id => id ∉ map Kod remnants) ids]> (heap w)) w
     ∧ map Seller.offer_id stocks ≡ₚ ids
     ∧ NoDup (map Seller.offer_id stocks))
  ∧ (∀ remnants r (w : world Seller.request Seller.page watch),
       (Seller.create_prices remnants r w).2 = w).
Proof.
  split; [|apply seller_create_prices_frame].
  intros remnants ids w r stocks w' Hnd Hids Hrun.
  rewrite seller_create_stocks_with in Hrun.
  apply (create_stocks_with_returns _ _ _ _ _ _ _ Hids) in Hrun
    as (pairs & rem & Hof & -> & ->).
  pose proof (stocks_of_perm _ _ _ _ Hof) as Hperm.
  apply (stocks_of_covers _ _ _ _ Hnd) in Hof as [_ ->].
  rewrite map_map. simpl. change (map (fun x => x.1) pairs) with (map fst pairs).
  split_and!; [done|done|by rewrite Hperm].
Qed.

Lemma create_stocks_consumes_witness :
  set_heap {[ 1%positive := ["Y"] ]} (seller_world ["X"; "Y"])
  = set_heap (<[1%positive := filter (fun id => id ∉ map Kod [Watch "X" "5" "100.00 руб."])
                                ["X"; "Y"]]> (heap (seller_world ["X"; "Y"])))
      (seller_world ["X"; "Y"])
  ∧ map Seller.offer_id [Seller.Stock "X" 5; Seller.Stock "Y" 0] ≡ₚ ["X"; "Y"]
  ∧ NoDup (map Seller.offer_id [Seller.Stock "X" 5; Seller.Stock "Y" 0]).
Proof.
  destruct create_stocks_consumes as [Hcons _].
  apply (Hcons [Watch "X" "5" "100.00 руб."] ["X"; "Y"]
           (seller_world ["X"; "Y"]) 1%positive).
  - by apply (bool_decide_unpack _).
  - reflexivity.
  - by vm_compute.
Defined.

(** C9, as stated, fails on a list that holds an id twice: one occurrence is
    removed, the list that is left still holds the id, which a record of the
    supplier carries, and the id is emitted twice. *)
Lemma create_stocks_leaves_matched_id :
  ∃ stocks w',
    Seller.create_stocks [Watch "A" "5" "1.00"] 1%positive (seller_world ["A"; "A"])
    = (inr stocks, w')
    ∧ heap w' !! 1%positive = Some ["A"]
    ∧ "A" ∈ map Kod [Watch "A" "5" "1.00"]
    ∧ map Seller.offer_id stocks = ["A"; "A"].
Proof.
  do 2 eexists. split_and!; [by vm_compute|by vm_compute| |by vm_compute].
  by left.
Qed.

(** ** Running a builder twice *)

(** C8 (amended: the two runs of [create_stocks] are given lists of the
    same content).  [create_prices], run twice on the same records and the
    same list object, returns the same list both times.  [create_stocks]
    returns the same list on two runs that are given list objects of the
    same content; run again on the list object that a first run has
    consumed, it returns only the ids that the first run left, each with
    stock 0 (the list holding no id twice). *)
Theorem builders_twice :
  (∀ remnants r (w : world Seller.request Seller.page watch),
     Seller.create_prices remnants r (Seller.create_prices remnants r w).2
     = Seller.create_prices remnants r w)
  ∧ (∀ remnants ids (w1 w2 : world Seller.request Seller.page watch) r1 r2,
       heap w1 !! r1 = Some ids → heap w2 !! r2 = Some ids →
       (Seller.create_stocks remnants r1 w1).1
       = (Seller.create_stocks remnants r2 w2).1)
  ∧ (∀ remnants ids (w : world Seller.request Seller.page watch) r stocks w',
       NoDup ids → heap w !! r = Some ids →
       Seller.create_stocks remnants r w = (inr stocks, w') →
       Seller.create_stocks remnants r w'
       = (inr (map (fun id => Seller.Stock id 0)
                   (filter (fun id => id ∉ map Kod remnants) ids)), w')).
Proof.
  split_and!.
  - intros remnants r w. by rewrite seller_create_prices_frame.
  - intros remnants ids w1 w2 r1 r2 H1 H2.
    rewrite (seller_create_stocks_with remnants r1),
      (seller_create_stocks_with remnants r2).
    by rewrite (run_create_stocks_with _ _ _ _ _ H1),
               (run_create_stocks_with _ _ _ _ _ H2).
  - intros remnants ids w r stocks w' Hnd Hids Hrun.
    rewrite seller_create_stocks_with in Hrun.
    apply (create_stocks_with_returns _ _ _ _ _ _ _ Hids) in Hrun
      as (pairs & rem & Hof & -> & ->).
    apply (stocks_of_covers _ _ _ _ Hnd) in Hof as [_ ->].
    set (rem := filter (fun id => id ∉ map Kod remnants) ids).
    rewrite seller_create_stocks_with,
      (run_create_stocks_with _ _ _ rem) by apply lookup_insert_eq.
    unfold stocks_of. rewrite stock_pass_none.
    + simpl. rewrite insert_insert_eq, map_map. done.
    + intros v Hv [Hno _]%list_elem_of_filter. apply Hno.
      rewrite map_fmap. apply list_elem_of_fmap. eauto.
Qed.

Lemma builders_twice_witness :
  Seller.create_stocks [Watch "X" "5" "100.00 руб."] 1%positive
    (set_heap {[ 1%positive := ["Y"] ]} (seller_world ["X"; "Y"]))
  = (inr (map (fun id => Seller.Stock id 0)
            (filter (fun id => id ∉ map Kod [Watch "X" "5" "100.00 руб."])
               ["X"; "Y"])),
     set_heap {[ 1%positive := ["Y"] ]} (seller_world ["X"; "Y"])).
Proof.
  destruct builders_twice as (_ & _ & Hagain).
  apply (Hagain _ ["X"; "Y"] (seller_world ["X"; "Y"]) 1%positive
           [Seller.Stock "X" 5; Seller.Stock "Y" 0]).
  - by apply (bool_decide_unpack _).
  - reflexivity.
  - by vm_compute.
Defined.

(** C8, as stated, fails for [create_stocks] when the two runs are given the
    same list object, as a caller that keeps its list does: the first run
    returns X:5, Y:0 and consumes ["X"]; the second returns Y:0 alone. *)
Lemma create_stocks_twice_differ :
  let w := seller_world ["X"; "Y"] in
  let remnants := [Watch "X" "5" "100.00 руб."] in
  let first := Seller.create_stocks remnants 1%positive w in
  let second := Seller.create_stocks remnants 1%positive first.2 in
  first.1 = inr [Seller.Stock "X" 5; Seller.Stock "Y" 0]
  ∧ second.1 = inr [Seller.Stock "Y" 0]
  ∧ first.1 ≠ second.1.
Proof. split_and!; by vm_compute. Qed.

(** ** Parsing integers *)

Section Int.
Implicit Types (l : list ascii) (a : ascii) (s : string).

Lemma digit_not_space a : Py.is_digit a = true → Py.is_space a = false.
Proof. by destruct a as [[] [] [] [] [] [] [] []]. Qed.

Lemma digit_not_sign a :
  Py.is_digit a = true →
  Ascii.eqb a "-"%char = false ∧ Ascii.eqb a "+"%char = false.
Proof. by destruct a as [[] [] [] [] [] [] [] []]. Qed.

Lemma lstrip_digits l : Forall (fun a => Py.is_digit a = true) l → Py.lstrip l = l.
Proof.
  destruct 1 as [|a l Ha _]; [done|]. simpl. by rewrite digit_not_space.
Qed.

Lemma strip_digits l : Forall (fun a => Py.is_digit a = true) l → Py.strip l = l.
Proof.
  intros Hl. unfold Py.strip. rewrite (lstrip_digits l Hl).
  rewrite lstrip_digits, rev_involutive; [done|].
  by apply List.Forall_rev.
Qed.

(** A string of ASCII digits is its own code points, and [int] parses it
    as it stands. *)
Lemma int_char_digit a :
  Py.is_digit a = true → (Py.byte a <? 128) = true ∧ Py.int_char (Py.byte a) = a.
Proof. by destruct a as [[] [] [] [] [] [] [] []]. Qed.

Lemma decode_digits l :
  Forall (fun a => Py.is_digit a = true) l →
  map Py.int_char (Py.utf8_decode l) = l.
Proof.
  induction 1 as [|a l Ha _ IH]; [done|].
  destruct (int_char_digit a Ha) as [Hlow Hchar].
  cbn [Py.utf8_decode]. cbv zeta. rewrite Hlow.
  cbn [map]. by rewrite Hchar, IH.
Qed.

Lemma filter_digits l :
  Forall (fun a => Py.is_digit a = true) l → List.filter Py.is_digit l = l.
Proof. induction 1 as [|a l Ha _ IH]; simpl; [done|]. by rewrite Ha, IH. Qed.

Lemma int_digits_digits l acc after :
  Forall (fun a => Py.is_digit a = true) l →
  l ≠ [] ∨ after = true → is_Some (Py.int_digits l acc after).
Proof.
  intros Hl. revert acc after.
  induction Hl as [|a l Ha _ IH]; intros acc after; simpl.
  - intros [?| ->]; [done|eauto].
  - intros _. unfold Py.is_digit in Ha.
    destruct (Ascii.is_nat a) as [d|]; [|done]. apply IH. by right.
Qed.

(** [int] on some strings, as CPython answers them: underscores and
    leading zeros, a digit of another script, the separator byte 28 that is
    white space for [str.isspace] and not for [int], and the two sides of
    the limit. *)
Lemma int_samples :
  Py.int " -1_000 " = inr (-1000)
  ∧ Py.int "007" = inr 7
  ∧ Py.int "٣" = inr 3
  ∧ Py.int (String (ascii_of_nat 28) "5") = inl ValueError
  ∧ Py.int "5_" = inl ValueError
  ∧ Py.int "1.5" = inl ValueError
  ∧ Py.int EmptyString = inl ValueError
  ∧ (∃ z, Py.int (String.string_of_list_ascii (replicate 4300 "9"%char)) = inr z)
  ∧ Py.int (String.string_of_list_ascii (replicate 4301 "9"%char))
    = inl ValueError.
Proof. split_and!; try by vm_compute. eexists. by vm_compute. Qed.

Lemma length_list_ascii s :
  length (String.list_ascii_of_string s) = String.length s.
Proof. induction s as [|a s IH]; simpl; [done|]. by rewrite IH. Qed.

(** [int] on a string of digits: it raises exactly when the string is
    empty or longer than [Py.max_str_digits]. *)
Lemma int_of_digits s :
  Forall (fun a => Py.is_digit a = true) (String.list_ascii_of_string s) →
  (∃ z, Py.int s = inr z
        ∧ s ≠ EmptyString
        ∧ Z.of_nat (String.length s) <= Py.max_str_digits)
  ∨ (Py.int s = inl ValueError
     ∧ (s = EmptyString ∨ Py.max_str_digits < Z.of_nat (String.length s))).
Proof.
  intros Hs. unfold Py.int.
  rewrite (decode_digits _ Hs), (strip_digits _ Hs), (filter_digits _ Hs).
  rewrite length_list_ascii.
  destruct s as [|a s]; [right; split; [done|by left]|].
  pose proof (Forall_inv Hs) as Ha.
  destruct (int_digits_digits _ 0 false Hs) as [z Hz]; [by left|].
  simpl in Ha, Hz |- *.
  destruct (digit_not_sign a Ha) as [-> ->]. rewrite Hz.
  destruct (_ <=? _) eqn:Hlen.
  - left. exists z. split_and!; [done|done|]. by apply Z.leb_le in Hlen.
  - right. split; [done|]. right. by apply Z.leb_gt in Hlen.
Qed.

Lemma int_of_price price :
  (∃ z, Py.int (Seller.price_conversion price) = inr z
        ∧ Seller.price_conversion price ≠ EmptyString
        ∧ Z.of_nat (String.length (Seller.price_conversion price))
          <= Py.max_str_digits)
  ∨ (Py.int (Seller.price_conversion price) = inl ValueError
     ∧ (Seller.price_conversion price = EmptyString
        ∨ Py.max_str_digits
          < Z.of_nat (String.length (Seller.price_conversion price)))).
Proof.
  apply int_of_digits.
  rewrite price_conversion_digits. apply digits_of_all_digits.
Qed.
End Int.

(** ** Which builder raises, and when *)

Section MarketPrices.
Implicit Types (remnants : list watch) (ids : list string).

Lemma market_prices_raises remnants ids :
  raises_exactly_when (market_prices remnants ids)
    (∃ v, v ∈ remnants ∧ Kod v ∈ ids
          ∧ (Seller.price_conversion (Tsena v) = EmptyString
             ∨ Py.max_str_digits
               < Z.of_nat (String.length (Seller.price_conversion (Tsena v))))).
Proof.
  unfold raises_exactly_when.
  induction remnants as [|v remnants [IHiff IHonly]]; simpl.
  { split; [|done]. split; [done|]. by intros (v & ?%elem_of_nil & _). }
  destruct (Py.contains ids (Kod v)) eqn:Hin.
  - apply contains_true in Hin.
    destruct (int_of_price (Tsena v)) as [(z & Hz & Hne & Hlen)|[Hz Hbad]];
      rewrite Hz.
    + destruct (market_prices remnants ids) as [e|out] eqn:Hrest.
      * split; [|intros ? [= <-]; by apply IHonly].
        split; [intros He|by intros; f_equal; apply IHonly].
        apply IHiff in He as (u & Hu & ?). exists u. split; [by right|done].
      * split; [|done]. split; [done|].
        intros (u & [->|Hu]%elem_of_cons & Hk & Hbad).
        -- destruct Hbad; [done|lia].
        -- enough (inr out = inl ValueError :> exn + _) by done.
           apply IHiff. eauto.
    + split; [|by intros ? [= <-]].
      split; [intros _|done]. exists v. split_and!; [by left|done|done].
  - apply contains_false in Hin. split; [|done]. rewrite IHiff.
    split.
    + intros (u & Hu & ?). exists u. split; [by right|done].
    + intros (u & [->|Hu]%elem_of_cons & Hk & Hbad); [done|eauto].
Qed.
End MarketPrices.


(** C7 (amended: market.py's [create_prices] raises too, on a price that
    [int] refuses).  Given a list object for the offer ids, and a chunk size
    [n > 0], the builders and the splitter raise nothing but the parse
    error, and that exactly in two cases: [create_stocks] (of either file)
    when a matched record of the supplier has a quantity that is neither
    [">10"] nor ["1"] nor a string that [int] parses; [create_prices] of
    market.py when a record whose code is known has a price with no digit
    before its first ['.'], so that [price_conversion] gives the empty
    string, or with more than 4300 digits there, which is more than [int]
    converts.  [create_prices] of seller.py and [divide] always return. *)
Theorem builders_raise :
  (∀ remnants ids (w : world Seller.request Seller.page watch) r,
     heap w !! r = Some ids →
     raises_exactly_when (Seller.create_stocks remnants r w).1
       (∃ pre v post,
           remnants = pre ++ v :: post ∧ matched ids pre v
           ∧ malformed (Kolichestvo v)))
  ∧ (∀ remnants ids (w : world Market.request Market.page watch) r warehouse_id,
       heap w !! r = Some ids →
       raises_exactly_when (Market.create_stocks remnants r warehouse_id w).1
         (∃ pre v post,
             remnants = pre ++ v :: post ∧ matched ids pre v
             ∧ malformed (Kolichestvo v)))
  ∧ (∀ remnants ids (w : world Market.request Market.page watch) r,
       heap w !! r = Some ids →
       raises_exactly_when (Market.create_prices remnants r w).1
         (∃ v, v ∈ remnants ∧ Kod v ∈ ids
               ∧ (Seller.price_conversion (Tsena v) = EmptyString
                  ∨ Py.max_str_digits
                    < Z.of_nat
                        (String.length (Seller.price_conversion (Tsena v))))))
  ∧ (∀ remnants ids (w : world Seller.request Seller.page watch) r,
       heap w !! r = Some ids →
       ∃ prices, (Seller.create_prices remnants r w).1 = inr prices)
  ∧ (∀ A (lst : list A) n, 0 < n → ∃ chunks, Seller.divide lst n = inr chunks).
Proof.
  split_and!.
  - intros remnants ids w r Hids. rewrite seller_create_stocks_with.
    by apply create_stocks_with_raises_when.
  - intros remnants ids w r warehouse_id Hids. rewrite market_create_stocks_with.
    by apply create_stocks_with_raises_when.
  - intros remnants ids w r Hids.
    rewrite (run_market_create_prices _ _ _ _ Hids). apply market_prices_raises.
  - intros remnants ids w r Hids.
    rewrite (run_seller_create_prices _ _ _ _ Hids). eauto.
  - intros A lst n Hn. rewrite divide_chunks by done. eauto.
Qed.

Lemma builders_raise_witness :
  raises_exactly_when
    (Seller.create_stocks [Watch "X" "5" "1.00"; Watch "Y" "many" "2.00"]
       1%positive (seller_world ["X"; "Y"])).1
    (∃ pre v post,
        [Watch "X" "5" "1.00"; Watch "Y" "many" "2.00"] = pre ++ v :: post
        ∧ matched ["X"; "Y"] pre v ∧ malformed (Kolichestvo v))
  ∧ (Market.create_prices
       [Watch "A" "1" (String.string_of_list_ascii (replicate 4301 "9"%char))]
       1%positive (market_world ["A"] (always EmptyString))).1
    = inl ValueError
  ∧ ∃ chunks, Seller.divide [1; 2; 3] 2 = inr chunks.
Proof.
  destruct builders_raise as (Hstocks & _ & Hprices & _ & Hdivide).
  split_and!.
  - apply Hstocks. reflexivity.
  - apply (Hprices _ ["A"]); [reflexivity|].
    eexists. split_and!; [by left|by left|].
    right. by vm_compute.
  - apply Hdivide. lia.
Defined.

(** C7, as stated, fails for [create_prices] of market.py: the record's
    quantity is ["1"], which is not malformed, and the builder raises all
    the same, because the price has no digit before its ['.']. *)
Lemma market_create_prices_raises_on_price :
  (Market.create_prices [Watch "A" "1" "руб."] 1%positive
     (market_world ["A"] (always "2024-01-01T00:00:00"))).1 = inl ValueError
  ∧ ¬ malformed (Kolichestvo (Watch "A" "1" "руб.")).
Proof.
  split; [by vm_compute|]. by intros (_ & ? & _).
Qed.

(** ** The two files on a price without digits *)

(** C10.  A record of the supplier whose code is among the offer ids and
    whose price has no digit before its first ['.'] (so that
    [price_conversion] gives the empty string) makes [create_prices] of
    market.py raise the parse error of [int("")], while [create_prices] of
    seller.py returns, with a price record for that code whose price is the
    empty string. *)
Theorem create_prices_diverge remnants ids v pre :
  v ∈ remnants → Kod v ∈ ids →
  before_first_dot (Tsena v) pre →
  Forall (fun a => Py.is_digit a = false) (String.list_ascii_of_string pre) →
  Seller.price_conversion (Tsena v) = EmptyString
  ∧ Py.int EmptyString = inl ValueError
  ∧ (∀ (w : world Market.request Market.page watch) r,
       heap w !! r = Some ids →
       (Market.create_prices remnants r w).1 = inl ValueError)
  ∧ (∀ (w : world Seller.request Seller.page watch) r,
       heap w !! r = Some ids →
       ∃ prices,
         (Seller.create_prices remnants r w).1 = inr prices
         ∧ Seller.Price "UNKNOWN" "RUB" (Kod v) "0" EmptyString ∈ prices).
Proof.
  intros Hv Hin Hpre Hnodigit.
  assert (Seller.price_conversion (Tsena v) = EmptyString) as Hempty.
  { rewrite price_conversion_digits.
    rewrite <- (before_first_dot_unique _ _ _ Hpre (split_head _)).
    by apply digits_of_none. }
  split_and!; [done|done| |].
  - intros w r Hids. rewrite (run_market_create_prices _ _ _ _ Hids).
    apply market_prices_raises. eauto.
  - intros w r Hids. rewrite (run_seller_create_prices _ _ _ _ Hids).
    eexists. split; [done|]. unfold seller_prices.
    rewrite map_fmap. apply list_elem_of_fmap. exists v.
    split; [by rewrite Hempty|]. by apply list_elem_of_filter.
Qed.

Lemma create_prices_diverge_witness :
  (Market.create_prices [Watch "A" "3" "руб.00"] 1%positive
     (market_world ["A"] (always "2024-01-01T00:00:00"))).1 = inl ValueError
  ∧ ∃ prices,
      (Seller.create_prices [Watch "A" "3" "руб.00"] 1%positive
         (seller_world ["A"])).1 = inr prices
      ∧ Seller.Price "UNKNOWN" "RUB" "A" "0" EmptyString ∈ prices.
Proof.
  destruct (create_prices_diverge [Watch "A" "3" "руб.00"] ["A"]
              (Watch "A" "3" "руб.00") "руб") as (_ & _ & Hmarket & Hseller).
  - by left.
  - by left.
  - exists ".00". split_and!; [reflexivity|right; eauto|].
    apply (bool_decide_unpack _). by vm_compute.
  - vm_compute. repeat constructor.
  - split; [by apply Hmarket|by apply Hseller].
Defined.

(** ** The orchestrator *)

(** C2 holds of the specification and fails of seller.py's [main]: it gives
    [create_prices] the list object that [create_stocks] has just consumed.
    In the end-to-end scenario the stock of ["X"] is pushed, and no price
    is: the one request for prices that the scenario calls for is never
    sent, though [create_prices] on the ids as they were listed builds it. *)
Theorem main_pushes_no_price :
  let run := Seller.main scenario_world in
  run.1 = inr tt
  ∧ requests (run.2)
    = [Seller.ProductList EmptyString;
       Seller.ImportStocks [Seller.Stock "X" 5; Seller.Stock "Y" 0]]
  ∧ (∀ prices, Seller.ImportPrices prices ∉ requests (run.2))
  ∧ stdout (run.2) = []
  ∧ (Seller.create_prices [Watch "X" "5" "100.00 руб."] 1%positive
       (seller_world ["X"; "Y"])).1
    = inr [Seller.Price "UNKNOWN" "RUB" "X" "0" "100"].
Proof.
  assert (requests (Seller.main scenario_world).2
          = [Seller.ProductList EmptyString;
             Seller.ImportStocks [Seller.Stock "X" 5; Seller.Stock "Y" 0]])
    as Hsent by (by vm_compute).
  split_and!; try by vm_compute.
  intros prices Hin. rewrite Hsent in Hin.
  repeat (apply elem_of_cons in Hin as [Hin|Hin]; [discriminate|]).
  by apply elem_of_nil in Hin.
Qed.

(** ** The offer resolver *)

Section Http.
Context {Q P W : Type}.
Implicit Types (w : world Q P W).

Lemma run_http w q reply rest :
  replies w = reply :: rest → http q w = (reply, answered w [q] rest).
Proof. intros Hr. unfold http. by rewrite Hr. Qed.

Lemma answered_answered w sent1 rest1 sent2 rest2 :
  answered (answered w sent1 rest1) sent2 rest2
  = answered w (sent1 ++ sent2) rest2.
Proof. unfold answered. simpl. by rewrite app_assoc. Qed.
End Http.

Section SellerPaging.
Implicit Types (w : world Seller.request Seller.page watch)
  (pre pages : list Seller.page) (acc : list Seller.product).

(** The loop of [get_offer_ids] over pages of which the last is the first
    whose [total] is the number of products accumulated. *)
Lemma run_seller_pages pre last rest fuel cursor acc w :
  replies w = deliver (pre ++ [last]) ++ rest →
  (length pre < fuel)%nat →
  (∀ k p, pre !! k = Some p →
     Seller.total p
     ≠ Z.of_nat (length acc + length (seller_listed (take (S k) pre)))) →
  Seller.total last
  = Z.of_nat (length acc + length (seller_listed (pre ++ [last]))) →
  while_true fuel (fun '(last_id, product_list) =>
      let* some_prod := Seller.get_product_list last_id in
      match some_prod with
      | None => raise AttributeError
      | Some some_prod =>
          let product_list := product_list ++ Seller.items some_prod in
          let total := Seller.total some_prod in
          let last_id := Seller.last_id some_prod in
          if total =? Z.of_nat (length product_list)
          then ret (inr product_list)
          else ret (inl (last_id, product_list))
      end) (cursor, acc) w
  = (inr (acc ++ seller_listed (pre ++ [last])),
     answered w (map Seller.ProductList (cursor :: map Seller.last_id pre)) rest).
Proof.
  match goal with |- context [while_true _ ?b] => set (body := b) end.
  assert (∀ cursor acc w p rest',
    replies w = inr (Some p) :: rest' →
    body (cursor, acc) w
    = (inr (if Seller.total p =? Z.of_nat (length (acc ++ Seller.items p))
            then inr (acc ++ Seller.items p)
            else inl (Seller.last_id p, acc ++ Seller.items p)),
       answered w [Seller.ProductList cursor] rest')) as Hround.
  { intros c a w0 p rest' Hrep. unfold body, bind, Seller.get_product_list.
    rewrite (run_http _ _ _ _ Hrep). by destruct (_ =? _). }
  clearbody body. revert fuel cursor acc w.
  induction pre as [|p pre IH]; intros fuel cursor acc w Hrep Hfuel Hgo Hstop;
    (destruct fuel as [|fuel]; [simpl in Hfuel; lia|]);
    cbn [while_true]; unfold bind at 1; rewrite (Hround _ _ _ _ _ Hrep).
  - unfold seller_listed in *. simpl in *. rewrite app_nil_r in *.
    rewrite length_app. rewrite Hstop, Z.eqb_refl. done.
  - assert (Seller.total p ≠ Z.of_nat (length (acc ++ Seller.items p))) as Hp.
    { specialize (Hgo 0%nat p eq_refl). unfold seller_listed in Hgo.
      simpl in Hgo. rewrite app_nil_r in Hgo. by rewrite length_app. }
    apply Z.eqb_neq in Hp. rewrite Hp.
    erewrite (IH fuel (Seller.last_id p) (acc ++ Seller.items p)).
    + rewrite answered_answered. unfold seller_listed. simpl.
      by rewrite <- app_assoc.
    + done.
    + simpl in Hfuel. lia.
    + intros k q Hq. specialize (Hgo (S k) q Hq).
      unfold seller_listed in *. simpl in Hgo.
      rewrite !length_app in *. by rewrite <- Nat.add_assoc.
    + unfold seller_listed in *. simpl in Hstop.
      rewrite !length_app in *. by rewrite <- Nat.add_assoc.
Qed.
End SellerPaging.

Section MarketPaging.
Implicit Types (w : world Market.request Market.page watch)
  (pre pages : list Market.page) (acc : list Market.entry).

(** The loop of [get_offer_ids] over pages of which the last is the first
    without a next-page token. *)
Lemma run_market_pages pre last rest fuel cursor acc w :
  replies w = deliver (pre ++ [last]) ++ rest →
  (length pre < fuel)%nat →
  (∀ p, p ∈ pre →
     Market.falsy (Market.nextPageToken (Market.paging p)) = false) →
  Market.falsy (Market.nextPageToken (Market.paging last)) = true →
  while_true fuel (fun '(page, product_list) =>
      let* some_prod := Market.get_product_list page in
      match some_prod with
      | None => raise AttributeError
      | Some some_prod =>
          let product_list :=
            product_list ++ Market.offerMappingEntries some_prod in
          let page := Market.nextPageToken (Market.paging some_prod) in
          if Market.falsy page
          then ret (inr product_list)
          else ret (inl (default EmptyString page, product_list))
      end) (cursor, acc) w
  = (inr (acc ++ market_listed (pre ++ [last])),
     answered w
       (map Market.OfferMappingEntries (cursor :: map market_token pre)) rest).
Proof.
  match goal with |- context [while_true _ ?b] => set (body := b) end.
  assert (∀ cursor acc w p rest',
    replies w = inr (Some p) :: rest' →
    body (cursor, acc) w
    = (inr (if Market.falsy (Market.nextPageToken (Market.paging p))
            then inr (acc ++ Market.offerMappingEntries p)
            else inl (market_token p, acc ++ Market.offerMappingEntries p)),
       answered w [Market.OfferMappingEntries cursor] rest')) as Hround.
  { intros c a w0 p rest' Hrep. unfold body, bind, Market.get_product_list.
    rewrite (run_http _ _ _ _ Hrep). by destruct (Market.falsy _). }
  clearbody body. revert fuel cursor acc w.
  induction pre as [|p pre IH]; intros fuel cursor acc w Hrep Hfuel Hgo Hstop;
    (destruct fuel as [|fuel]; [simpl in Hfuel; lia|]);
    cbn [while_true]; unfold bind at 1; rewrite (Hround _ _ _ _ _ Hrep).
  - rewrite Hstop. unfold market_listed. simpl. by rewrite app_nil_r.
  - rewrite (Hgo p) by by left.
    erewrite (IH fuel (market_token p) (acc ++ Market.offerMappingEntries p)).
    + rewrite answered_answered. unfold market_listed. simpl.
      by rewrite <- app_assoc.
    + done.
    + simpl in Hfuel. lia.
    + intros q Hq. apply Hgo. by right.
    + done.
Qed.
End MarketPaging.

Section Collect.
Context {Q P W A : Type} (f : A → string).

Lemma run_collect_ids (l : list A) acc (w : world Q P W) :
  for_loop l (fun product offer_ids => ret (offer_ids ++ [f product])) acc w
  = (inr (acc ++ map f l), w).
Proof.
  revert acc. induction l as [|x l IH]; intros acc; simpl.
  - unfold ret. by rewrite app_nil_r.
  - unfold bind, ret at 1. rewrite IH. by rewrite <- app_assoc.
Qed.
End Collect.

(** C6 (amended: in seller.py the one signal is that the products
    accumulated reach the page's [total]).  Let the marketplace answer with
    the pages [pre ++ [last]], then with [rest], where [last] is the first
    page that signals the end: in market.py the first whose next-page token
    is empty or absent, in seller.py the first whose [total] is the number
    of products accumulated so far.  Then [get_offer_ids] returns a new list
    that holds one offer id for each product listed on these pages, in the
    order received; it has sent one request per page, the first with the
    empty cursor and each next one with the cursor of the page before; and
    it has left [rest] unread. *)
Theorem get_offer_ids_pages :
  (∀ (w : world Seller.request Seller.page watch) pre last rest,
     replies w = deliver (pre ++ [last]) ++ rest →
     (∀ k p, pre !! k = Some p →
        Seller.total p ≠ Z.of_nat (length (seller_listed (take (S k) pre)))) →
     Seller.total last = Z.of_nat (length (seller_listed (pre ++ [last]))) →
     let r := fresh (dom (heap w)) in
     Seller.get_offer_ids w
     = (inr r,
        set_heap
          (<[r := map Seller.product_offer_id (seller_listed (pre ++ [last]))]>
             (heap w))
          (answered w
             (map Seller.ProductList (EmptyString :: map Seller.last_id pre))
             rest)))
  ∧ (∀ (w : world Market.request Market.page watch) pre last rest,
       replies w = deliver (pre ++ [last]) ++ rest →
       (∀ p, p ∈ pre →
          Market.falsy (Market.nextPageToken (Market.paging p)) = false) →
       Market.falsy (Market.nextPageToken (Market.paging last)) = true →
       let r := fresh (dom (heap w)) in
       Market.get_offer_ids w
       = (inr r,
          set_heap
            (<[r := map (fun e => Market.shopSku (Market.offer e))
                      (market_listed (pre ++ [last]))]> (heap w))
            (answered w
               (map Market.OfferMappingEntries
                  (EmptyString :: map market_token pre))
               rest))).
Proof.
  split.
  - intros w pre last rest Hrep Hgo Hstop r.
    unfold Seller.get_offer_ids, bind at 1, rounds. cbn iota beta.
    unfold bind at 1.
    rewrite (run_seller_pages pre last rest _ _ [] w Hrep); [|..|done].
    + unfold bind at 1. rewrite run_collect_ids. done.
    + rewrite Hrep. unfold deliver.
      rewrite !length_app, length_map, length_app. lia.
    + done.
  - intros w pre last rest Hrep Hgo Hstop r.
    unfold Market.get_offer_ids, bind at 1, rounds. cbn iota beta.
    unfold bind at 1.
    rewrite (run_market_pages pre last rest _ _ [] w Hrep); [|..|done].
    + unfold bind at 1. rewrite run_collect_ids. done.
    + rewrite Hrep. unfold deliver.
      rewrite !length_app, length_map, length_app. lia.
    + done.
Qed.

Lemma get_offer_ids_pages_witness :
  Seller.get_offer_ids seller_two_pages
  = (inr 1%positive,
     World {[ 1%positive := ["X"; "Y"] ]} []
       [Seller.ProductList EmptyString; Seller.ProductList "X"]
       (inr []) [] (always EmptyString))
  ∧ Market.get_offer_ids market_two_pages
    = (inr 1%positive,
       World {[ 1%positive := ["X"; "Y"] ]} []
         [Market.OfferMappingEntries EmptyString; Market.OfferMappingEntries "t1"]
         (inr []) [] (always EmptyString)).
Proof.
  destruct get_offer_ids_pages as [Hseller Hmarket]. split.
  - rewrite (Hseller seller_two_pages [Seller.Page [Seller.Product "X"] 2 "X"]
               (Seller.Page [Seller.Product "Y"] 2 "Y") []).
    + by vm_compute.
    + reflexivity.
    + intros [|k] p; [|done]. by intros [= <-].
    + reflexivity.
  - rewrite (Hmarket market_two_pages
               [Market.Page [Market.Entry (Market.Offer "X")]
                  (Market.Paging (Some "t1"))]
               (Market.Page [Market.Entry (Market.Offer "Y")]
                  (Market.Paging None)) []).
    + by vm_compute.
    + reflexivity.
    + intros p [->|[]%elem_of_nil]%elem_of_cons. reflexivity.
    + reflexivity.
Defined.

(** C6, as stated, fails in seller.py on a page that adds no product: after
    the second page the count of accumulated products has stopped growing
    (one product, as after the first page), and [get_offer_ids] goes on to
    ask for a third page, with the same cursor; it stops there, where the
    count is the declared total.  Were there no third page it would still
    have asked for it. *)
Lemma stalled_count_does_not_stop :
  length (seller_listed [Seller.Page [Seller.Product "a"] 2 "x"; Seller.Page [] 2 "x"])
  = length (seller_listed [Seller.Page [Seller.Product "a"] 2 "x"])
  ∧ requests (Seller.get_offer_ids seller_stalled).2
    = [Seller.ProductList EmptyString; Seller.ProductList "x";
       Seller.ProductList "x"]
  ∧ heap (Seller.get_offer_ids seller_stalled).2 !! 1%positive = Some ["a"; "b"]
  ∧ (Seller.get_offer_ids
       (World ∅ (deliver [Seller.Page [Seller.Product "a"] 2 "x";
                          Seller.Page [] 2 "x"])
          [] (inr []) [] (always EmptyString))).1 = inl NoResponse.
Proof. split_and!; by vm_compute. Qed.

(** * Further properties *)

(** ** The splitter on a chunk size that is not positive *)

(** X1.  With chunk size 0, [divide] raises [ValueError] (the step of
    [range] must not be zero); with a negative chunk size it yields no chunk
    at all, whatever the list holds. *)
Theorem divide_nonpositive {A} (lst : list A) (n : Z) :
  (n = 0 → Seller.divide lst n = inl ValueError)
  ∧ (n < 0 → Seller.divide lst n = inr []).
Proof.
  unfold Seller.divide, Py.range. split.
  - by intros ->.
  - intros Hn.
    assert ((n =? 0) = false) as -> by lia.
    assert ((0 <? n) = false) as -> by lia.
    assert ((Z.of_nat (length lst) <? 0) = false) as -> by (apply Z.ltb_ge; lia).
    done.
Qed.

Lemma divide_nonpositive_witness :
  Seller.divide [1; 2; 3] 0 = inl ValueError
  ∧ Seller.divide [1; 2; 3] (-2) = inr [].
Proof.
  destruct (divide_nonpositive [1; 2; 3] 0) as [Hzero _].
  destruct (divide_nonpositive [1; 2; 3] (-2)) as [_ Hneg].
  split; [by apply Hzero|apply Hneg; lia].
Defined.

(** ** Converted prices *)

Section Converted.
Implicit Types (s price : string).

Lemma split_digits s :
  Forall (fun a => Py.is_digit a = true) (String.list_ascii_of_string s) →
  nth 0 (Py.split "."%char s) EmptyString = s.
Proof.
  induction s as [|a s IH]; simpl; [done|]. intros Hs.
  pose proof (Forall_inv Hs) as Ha. pose proof (Forall_inv_tail Hs) as Hs'.
  simpl in Ha.
  assert (Ascii.eqb a "."%char = false) as ->
    by (by destruct a as [[] [] [] [] [] [] [] []]).
  pose proof (split_not_nil "."%char s) as Hnil. specialize (IH Hs').
  destruct (Py.split "."%char s) as [|h t]; [done|]. simpl in *. by rewrite IH.
Qed.

Lemma digits_of_digits s :
  Forall (fun a => Py.is_digit a = true) (String.list_ascii_of_string s) →
  digits_of s = s.
Proof.
  intros Hs. unfold digits_of. rewrite filter_all.
  - apply String.string_of_list_ascii_of_string.
  - intros a Ha. apply Is_true_eq_left. by apply (proj1 (Forall_forall _ _) Hs).
Qed.

Lemma price_conversion_of_digits s :
  Forall (fun a => Py.is_digit a = true) (String.list_ascii_of_string s) →
  Seller.price_conversion s = s.
Proof.
  intros Hs. rewrite price_conversion_digits, (split_digits s Hs).
  by apply digits_of_digits.
Qed.
End Converted.

(** X2.  [price_conversion] returns a string of digits unchanged, and so a
    price that was converted is not changed by a second conversion. *)
Theorem price_conversion_idempotent :
  (∀ s, Forall (fun a => Py.is_digit a = true) (String.list_ascii_of_string s) →
        Seller.price_conversion s = s)
  ∧ (∀ price, Seller.price_conversion (Seller.price_conversion price)
              = Seller.price_conversion price).
Proof.
  split; [apply price_conversion_of_digits|].
  intros price. apply price_conversion_of_digits.
  rewrite price_conversion_digits. apply digits_of_all_digits.
Qed.

Lemma price_conversion_idempotent_witness :
  Seller.price_conversion "5990" = "5990".
Proof.
  destruct price_conversion_idempotent as [Hid _]. apply Hid.
  vm_compute. repeat constructor.
Defined.

(** ** The price lists *)

Lemma int_digits_nonneg l acc after z :
  0 <= acc → Py.int_digits l acc after = Some z → 0 <= z.
Proof.
  revert acc after. induction l as [|a l IH]; intros acc after Hacc; simpl.
  - destruct after; [|done]. by intros [= <-].
  - destruct (Ascii.is_nat a) as [d|].
    + apply IH. lia.
    + destruct (Ascii.eqb a "_"%char && after); [by apply IH|done].
Qed.

(** The integer that a converted price parses to is not negative. *)
Lemma int_of_price_nonneg price z :
  Py.int (Seller.price_conversion price) = inr z → 0 <= z.
Proof.
  pose proof (digits_of_all_digits (nth 0 (Py.split "."%char price) EmptyString))
    as Hdigits.
  rewrite <- price_conversion_digits in Hdigits.
  unfold Py.int.
  rewrite (decode_digits _ Hdigits), (strip_digits _ Hdigits).
  destruct (String.list_ascii_of_string _) as [|a l] eqn:Hl; [done|].
  pose proof (Forall_inv Hdigits) as Ha. simpl in Ha.
  destruct (digit_not_sign a Ha) as [-> ->].
  destruct (Py.int_digits (a :: l) 0 false) as [z'|] eqn:Hz; [|done].
  destruct (_ <=? _); [|done].
  intros [= <-]. by apply (int_digits_nonneg (a :: l) 0 false z').
Qed.

Lemma market_prices_sound remnants ids prices :
  market_prices remnants ids = inr prices →
  ∀ p, p ∈ prices →
    ∃ v, v ∈ remnants ∧ Kod v ∈ ids ∧ Market.id p = Kod v
         ∧ Market.currencyId (Market.price p) = "RUR"
         ∧ Py.int (Seller.price_conversion (Tsena v))
           = inr (Market.value (Market.price p)).
Proof.
  revert prices. induction remnants as [|v remnants IH]; intros prices; simpl.
  - intros [= <-] p Hp. by apply elem_of_nil in Hp.
  - destruct (Py.contains ids (Kod v)) eqn:Hin.
    + apply contains_true in Hin.
      destruct (Py.int _) as [|z] eqn:Hz; [done|].
      destruct (market_prices remnants ids) as [|out]; [done|].
      intros [= <-] p [->|Hp]%elem_of_cons.
      * exists v. split_and!; try done. by left.
      * destruct (IH out eq_refl p Hp) as (u & Hu & ?).
        exists u. split; [by right|done].
    + intros Hrest p Hp. destruct (IH _ Hrest p Hp) as (u & Hu & ?).
      exists u. split; [by right|done].
Qed.

(** X3.  Every record of the price list that market.py's [create_prices]
    returns is for a record of the supplier whose code is among the offer
    ids, in roubles, and its value is what the converted price parses to: a
    number that is not negative, whatever signs the price string holds. *)
Theorem market_prices_not_negative remnants ids r prices
    (w w' : world Market.request Market.page watch) :
  heap w !! r = Some ids →
  Market.create_prices remnants r w = (inr prices, w') →
  ∀ p, p ∈ prices →
    0 <= Market.value (Market.price p)
    ∧ Market.currencyId (Market.price p) = "RUR"
    ∧ ∃ v, v ∈ remnants ∧ Kod v ∈ ids ∧ Market.id p = Kod v
           ∧ Py.int (Seller.price_conversion (Tsena v))
             = inr (Market.value (Market.price p)).
Proof.
  intros Hids. rewrite (run_market_create_prices _ _ _ _ Hids).
  intros [= Hprices _] p Hp.
  destruct (market_prices_sound _ _ _ Hprices p Hp) as (v & Hv & Hk & Hid & Hcur & Hint).
  split_and!; [by apply (int_of_price_nonneg (Tsena v))|done|eauto 10].
Qed.

Lemma market_prices_not_negative_witness :
  0 <= Market.value (Market.price (Market.Price "A" (Market.PriceValue 1234 "RUR"))).
Proof.
  apply (market_prices_not_negative [Watch "A" "1" "-1'234.00 руб."] ["A"]
           1%positive [Market.Price "A" (Market.PriceValue 1234 "RUR")]
           (market_world ["A"] (always "")) (market_world ["A"] (always ""))).
  - reflexivity.
  - by vm_compute.
  - by left.
Defined.

Lemma filter_fmap_known (ids : list string) (remnants : list watch) :
  map Kod (filter (fun v => Kod v ∈ ids) remnants)
  = filter (fun c => c ∈ ids) (map Kod remnants).
Proof.
  induction remnants as [|v remnants IH]; [done|]. simpl.
  rewrite !filter_cons. case_decide; simpl; by rewrite IH.
Qed.

(** X4.  seller.py's [create_prices] changes nothing and returns the price
    records of the records of the supplier whose code is among the offer
    ids, record by record: the n-th price record is made from the n-th such
    record of the supplier's file, with its code, its converted price, old
    price ["0"], currency ["RUB"], auto action ["UNKNOWN"].  So the codes
    come in the order of the file, and as often as the file repeats them. *)
Theorem seller_prices_in_order remnants ids r
    (w : world Seller.request Seller.page watch) :
  heap w !! r = Some ids →
  Seller.create_prices remnants r w
  = (inr (map (fun v => Seller.Price "UNKNOWN" "RUB" (Kod v) "0"
                          (Seller.price_conversion (Tsena v)))
            (filter (fun v => Kod v ∈ ids) remnants)), w)
  ∧ ∀ prices, (Seller.create_prices remnants r w).1 = inr prices →
      map Seller.price_offer_id prices
      = filter (fun c => c ∈ ids) (map Kod remnants).
Proof.
  intros Hids. rewrite (run_seller_create_prices _ _ _ _ Hids).
  split; [done|]. intros prices [= <-].
  unfold seller_prices. rewrite map_map. simpl. apply filter_fmap_known.
Qed.

Lemma seller_prices_in_order_witness :
  Seller.create_prices
    [Watch "A" "1" "10.00"; Watch "B" "2" "20.00"; Watch "A" "3" "30.00"]
    1%positive (seller_world ["A"])
  = (inr [Seller.Price "UNKNOWN" "RUB" "A" "0" "10";
          Seller.Price "UNKNOWN" "RUB" "A" "0" "30"],
     seller_world ["A"]).
Proof.
  destruct (seller_prices_in_order
              [Watch "A" "1" "10.00"; Watch "B" "2" "20.00"; Watch "A" "3" "30.00"]
              ["A"] 1%positive (seller_world ["A"]) eq_refl)
    as [Hrun _].
  rewrite Hrun. by vm_compute.
Defined.

(** ** More on the stock builder *)

Section StockShape.
Implicit Types (remnants pre post : list watch) (work ids rem : list string)
  (out : list (string * Z)).

Lemma remove_sublist work x work' :
  Py.remove work x = inr work' → work' `sublist_of` work.
Proof.
  revert work'. induction work as [|y work IH]; simpl; [done|]. intros work'.
  case_bool_decide.
  - intros [= <-]. by apply sublist_cons.
  - destruct (Py.remove work x) as [|l0]; [done|]. intros [= <-].
    apply sublist_skip. by apply IH.
Qed.


(** A record whose code the list does not hold is passed over, whatever its
    quantity. *)
Lemma stock_pass_known remnants ids work :
  work ⊆ ids →
  stock_pass (filter (fun v => Kod v ∈ ids) remnants) work
  = stock_pass remnants work.
Proof.
  revert work. induction remnants as [|v remnants IH]; intros work Hsub; [done|].
  rewrite filter_cons. case_decide as Hin; simpl.
  - destruct (Py.contains work (Kod v)); [|by apply IH].
    destruct (stock_count _) as [|n]; [done|].
    destruct (Py.remove work (Kod v)) as [|work'] eqn:Hrem; [done|].
    rewrite IH; [done|]. intros x Hx. apply Hsub.
    apply remove_sublist in Hrem. by eapply elem_of_sublist.
  - assert (Py.contains work (Kod v) = false) as ->.
    { apply contains_false. intros Hx. apply Hin. by apply Hsub. }
    by apply IH.
Qed.
End StockShape.

(** X5.  [create_stocks] passes over the records of the supplier whose code
    is not among the offer ids, without looking at their quantity: it does
    the same, to the result and to the list, as on the file without those
    records.  So in both files. *)
Theorem create_stocks_skips_unknown remnants ids :
  (∀ (w : world Seller.request Seller.page watch) r,
     heap w !! r = Some ids →
     Seller.create_stocks remnants r w
     = Seller.create_stocks (filter (fun v => Kod v ∈ ids) remnants) r w)
  ∧ (∀ (w : world Market.request Market.page watch) r warehouse_id,
       heap w !! r = Some ids →
       Market.create_stocks remnants r warehouse_id w
       = Market.create_stocks (filter (fun v => Kod v ∈ ids) remnants) r
           warehouse_id w).
Proof.
  split.
  - intros w r Hids.
    rewrite (seller_create_stocks_with remnants),
      (seller_create_stocks_with (filter _ remnants)).
    rewrite !(run_create_stocks_with _ _ _ _ _ Hids).
    unfold stocks_of. by rewrite stock_pass_known.
  - intros w r warehouse_id Hids.
    rewrite (market_create_stocks_with remnants),
      (market_create_stocks_with (filter _ remnants)).
    rewrite !(run_create_stocks_with _ _ _ _ (tick w) Hids).
    unfold stocks_of. by rewrite stock_pass_known.
Qed.

Lemma create_stocks_skips_unknown_witness :
  Seller.create_stocks [Watch "Q" "many" "1.00"; Watch "X" "5" "2.00"]
    1%positive (seller_world ["X"; "Y"])
  = Seller.create_stocks [Watch "X" "5" "2.00"] 1%positive (seller_world ["X"; "Y"]).
Proof.
  destruct (create_stocks_skips_unknown
              [Watch "Q" "many" "1.00"; Watch "X" "5" "2.00"] ["X"; "Y"])
    as [Hseller _].
  rewrite (Hseller (seller_world ["X"; "Y"]) 1%positive eq_refl).
  by vm_compute.
Defined.



(** X7.  [create_stocks] is not all-or-nothing.  When it raises on a
    matched record with a malformed quantity, it leaves the caller's list as
    it was when that record was reached: the ids matched by the records
    before it are gone.  The world after the failed run on [pre ++ v :: post]
    is the world after a run on [pre] that returns. *)
Theorem create_stocks_raises_midway pre v post ids r stocks
    (w w1 : world Seller.request Seller.page watch) :
  heap w !! r = Some ids →
  Seller.create_stocks pre r w = (inr stocks, w1) →
  matched ids pre v → malformed (Kolichestvo v) →
  Seller.create_stocks (pre ++ v :: post) r w = (inl ValueError, w1).
Proof.
  intros Hids Hrun Hm Hbad.
  rewrite seller_create_stocks_with in Hrun.
  apply (create_stocks_with_returns _ _ _ _ _ _ _ Hids) in Hrun
    as (pairs & rem & Hof & _ & ->).
  rewrite seller_create_stocks_with, (run_create_stocks_with _ _ _ _ _ Hids).
  unfold stocks_of in *. rewrite stock_pass_app.
  destruct (stock_pass pre ids) as [[e|out] rem'] eqn:Hpass; [done|].
  injection Hof as _ <-.
  apply (matched_elem _ _ _ _ _ Hpass), contains_true in Hm.
  simpl. rewrite Hm.
  assert (stock_count (Kolichestvo v) = inl ValueError) as ->
    by by apply stock_count_error.
  done.
Qed.

Lemma create_stocks_raises_midway_witness :
  Seller.create_stocks
    [Watch "X" "5" "1.00"; Watch "Y" "many" "2.00"; Watch "Z" "3" "3.00"]
    1%positive (seller_world ["X"; "Y"; "Z"])
  = (inl ValueError,
     set_heap {[ 1%positive := ["Y"; "Z"] ]} (seller_world ["X"; "Y"; "Z"])).
Proof.
  apply (create_stocks_raises_midway [Watch "X" "5" "1.00"]
           (Watch "Y" "many" "2.00") [Watch "Z" "3" "3.00"] ["X"; "Y"; "Z"]
           1%positive
           [Seller.Stock "X" 5; Seller.Stock "Y" 0; Seller.Stock "Z" 0]).
  - reflexivity.
  - by vm_compute.
  - unfold matched. vm_compute. lia.
  - split_and!; [done|done|by vm_compute].
Defined.

(** ** Conversations, reply by reply *)

Section Rounds.
Context {Q P W S R : Type} (request_of : S → Q) (step : S → P → S + R).
Implicit Types (w : world Q P W).

Lemma answered_nothing w : answered w [] (replies w) = w.
Proof. destruct w. unfold answered. simpl. by rewrite app_nil_r. Qed.

Lemma answered_cons w q sent rest rest' :
  answered (answered w [q] rest) sent rest' = answered w (q :: sent) rest'.
Proof. by rewrite answered_answered. Qed.

(** A [while True] loop whose body is one round. *)
Lemma run_while_rounds (body : S → M Q P W (S + R)) :
  (∀ s w,
     body s w
     = match replies w with
       | [] => (inl NoResponse, answered w [request_of s] [])
       | inl e :: rest => (inl e, answered w [request_of s] rest)
       | inr None :: rest => (inl AttributeError, answered w [request_of s] rest)
       | inr (Some p) :: rest => (inr (step s p), answered w [request_of s] rest)
       end) →
  ∀ fuel s w, (length (replies w) < fuel)%nat →
    while_true fuel body s w
    = match pages_run request_of step s (replies w) with
      | (res, sent, rest) => (res, answered w sent rest)
      end.
Proof.
  intros Hround fuel. induction fuel as [|fuel IH]; intros s w Hfuel; [lia|].
  cbn [while_true]. unfold bind at 1. rewrite Hround.
  destruct (replies w) as [|[e|[p|]] rest] eqn:Hrep; simpl; try done.
  destruct (step s p) as [s'|x]; [|done].
  rewrite IH by (simpl in *; lia). simpl.
  destruct (pages_run request_of step s' rest) as [[res sent] rest'].
  by rewrite answered_cons.
Qed.
End Rounds.

Section Pushes.
Context {Q P W B : Type} (request_of : B → Q).
Implicit Types (w : world Q P W).

(** The loop that pushes the batches. *)
Lemma run_push (batches : list B) w :
  for_loop batches
    (fun batch _ => let* _ := http (request_of batch) in ret tt) tt w
  = match push_run request_of batches (replies w) with
    | (res, sent, rest) => (res, answered w sent rest)
    end.
Proof.
  revert w. induction batches as [|b bs IH]; intros w; simpl.
  - unfold ret. by rewrite answered_nothing.
  - unfold bind at 1 2, http.
    destruct (replies w) as [|[e|o] rest] eqn:Hrep; try done.
    unfold ret at 1.
    change (World (heap w) rest (requests w ++ [request_of b]) (ostatki w)
              (stdout w) (clock w)) with (answered w [request_of b] rest).
    rewrite IH. simpl.
    destruct (push_run request_of bs rest) as [[res sent] rest'].
    by rewrite answered_cons.
Qed.

(** All batches go through when each gets a reply without error status. *)
Lemma push_run_ok (batches : list B) (bodies : list (option P)) rest :
  length bodies = length batches →
  push_run request_of batches (map inr bodies ++ rest)
  = (inr tt, map request_of batches, rest).
Proof.
  revert bodies. induction batches as [|b bs IH]; intros [|o bodies] Hlen;
    simpl in *; try done.
  rewrite IH by lia. done.
Qed.

(** The first error status stops the loop; the batches after it are not
    sent. *)
Lemma push_run_fails (batches : list B) (bodies : list (option P)) e rest :
  (length bodies < length batches)%nat →
  push_run request_of batches (map inr bodies ++ inl e :: rest)
  = (inl e, map request_of (take (S (length bodies)) batches), rest).
Proof.
  revert bodies. induction batches as [|b bs IH]; intros [|o bodies] Hlen;
    simpl in *; try done; try lia.
  rewrite IH by lia. done.
Qed.
End Pushes.

(** [get_offer_ids] of seller.py on any replies. *)
Lemma run_seller_get_offer_ids (w : world Seller.request Seller.page watch) :
  Seller.get_offer_ids w
  = match pages_run seller_request seller_step (EmptyString, []) (replies w) with
    | (inr products, sent, rest) =>
        (inr (fresh (dom (heap w))),
         set_heap (<[fresh (dom (heap w))
                     := map Seller.product_offer_id products]> (heap w))
           (answered w sent rest))
    | (inl e, sent, rest) => (inl e, answered w sent rest)
    end.
Proof.
  unfold Seller.get_offer_ids, bind at 1, rounds. cbn iota beta.
  unfold bind at 1.
  rewrite (run_while_rounds seller_request seller_step); [|..|lia].
  - destruct (pages_run _ _ _ _) as [[[e|products] sent] rest]; [done|].
    unfold bind at 1. by rewrite run_collect_ids.
  - intros [c acc] w0. unfold bind, Seller.get_product_list, http.
    destruct (replies w0) as [|[e|[p|]] rest]; try done.
    unfold seller_step, seller_request. simpl. by destruct (_ =? _).
Qed.

(** [get_offer_ids] of market.py on any replies. *)
Lemma run_market_get_offer_ids (w : world Market.request Market.page watch) :
  Market.get_offer_ids w
  = match pages_run market_request market_step (EmptyString, []) (replies w) with
    | (inr entries, sent, rest) =>
        (inr (fresh (dom (heap w))),
         set_heap (<[fresh (dom (heap w))
                     := map (fun e => Market.shopSku (Market.offer e)) entries]>
                     (heap w))
           (answered w sent rest))
    | (inl e, sent, rest) => (inl e, answered w sent rest)
    end.
Proof.
  unfold Market.get_offer_ids, bind at 1, rounds. cbn iota beta.
  unfold bind at 1.
  rewrite (run_while_rounds market_request market_step); [|..|lia].
  - destruct (pages_run _ _ _ _) as [[[e|entries] sent] rest]; [done|].
    unfold bind at 1. by rewrite run_collect_ids.
  - intros [c acc] w0. unfold bind, Market.get_product_list, http.
    destruct (replies w0) as [|[e|[p|]] rest]; try done.
    unfold market_step, market_request, market_token. simpl.
    by destruct (Market.falsy _).
Qed.

Section GoOn.
Context {Q P S R : Type} (request_of : S → Q) (step : S → P → S + R).

Lemma pages_run_ends tail e rest s :
  ends_with tail e rest →
  pages_run request_of step s tail = (inl e, [request_of s], rest).
Proof. by destruct 1. Qed.
End GoOn.

(** Pages of seller.py that do not reach their total, then an end without
    result. *)
Lemma seller_pages_go_on pre tail e rest cursor acc :
  ends_with tail e rest →
  (∀ k p, pre !! k = Some p →
     Seller.total p
     ≠ Z.of_nat (length acc + length (seller_listed (take (S k) pre)))) →
  pages_run seller_request seller_step (cursor, acc) (deliver pre ++ tail)
  = (inl e, map Seller.ProductList (cursor :: map Seller.last_id pre), rest).
Proof.
  intros Hend. revert cursor acc.
  induction pre as [|p pre IH]; intros cursor acc Hgo.
  - exact (pages_run_ends seller_request seller_step tail e rest (cursor, acc) Hend).
  - simpl. unfold seller_step at 1. simpl.
    assert (Seller.total p ≠ Z.of_nat (length (acc ++ Seller.items p))) as Hp.
    { specialize (Hgo 0%nat p eq_refl). unfold seller_listed in Hgo.
      simpl in Hgo. rewrite app_nil_r in Hgo. by rewrite length_app. }
    apply Z.eqb_neq in Hp. rewrite Hp.
    rewrite (IH (Seller.last_id p) (acc ++ Seller.items p)); [done|].
    intros k q Hq. specialize (Hgo (S k) q Hq).
    unfold seller_listed in *. simpl in Hgo.
    rewrite !length_app in *. by rewrite <- Nat.add_assoc.
Qed.

(** Pages of market.py that carry a next-page token, then an end without
    result. *)
Lemma market_pages_go_on pre tail e rest cursor acc :
  ends_with tail e rest →
  (∀ p, p ∈ pre →
     Market.falsy (Market.nextPageToken (Market.paging p)) = false) →
  pages_run market_request market_step (cursor, acc) (deliver pre ++ tail)
  = (inl e,
     map Market.OfferMappingEntries (cursor :: map market_token pre), rest).
Proof.
  intros Hend. revert cursor acc.
  induction pre as [|p pre IH]; intros cursor acc Hgo.
  - exact (pages_run_ends market_request market_step tail e rest (cursor, acc) Hend).
  - simpl. unfold market_step at 1. simpl. rewrite (Hgo p) by by left.
    rewrite (IH (market_token p) (acc ++ Market.offerMappingEntries p)); [done|].
    intros q Hq. apply Hgo. by right.
Qed.

(** X8.  seller.py's [get_offer_ids] stops on nothing but a page whose
    [total] is the number of products accumulated, or an exception.  After
    pages that do not reach their total, an error status is raised as it
    comes, a body without [result] raises [AttributeError], and when the
    replies are used up the loop is still asking for the next page.  In each
    case one request per page and one more have been sent, each with the
    [last_id] of the page before, and no list of offer ids is created. *)
Theorem seller_get_offer_ids_fails pre tail e rest
    (w : world Seller.request Seller.page watch) :
  replies w = deliver pre ++ tail →
  ends_with tail e rest →
  (∀ k p, pre !! k = Some p →
     Seller.total p ≠ Z.of_nat (length (seller_listed (take (S k) pre)))) →
  Seller.get_offer_ids w
  = (inl e,
     answered w
       (map Seller.ProductList (EmptyString :: map Seller.last_id pre)) rest).
Proof.
  intros Hrep Hend Hgo. rewrite run_seller_get_offer_ids, Hrep.
  by rewrite (seller_pages_go_on pre tail e rest).
Qed.

Lemma seller_get_offer_ids_fails_witness :
  Seller.get_offer_ids
    (World ∅ (deliver [Seller.Page [Seller.Product "a"] 3 "a"]
              ++ [inl HTTPError; inr None]) [] (inr []) [] (always EmptyString))
  = (inl HTTPError,
     World ∅ [inr None]
       [Seller.ProductList EmptyString; Seller.ProductList "a"]
       (inr []) [] (always EmptyString)).
Proof.
  rewrite (seller_get_offer_ids_fails [Seller.Page [Seller.Product "a"] 3 "a"]
             [inl HTTPError; inr None] HTTPError [inr None]).
  - reflexivity.
  - reflexivity.
  - constructor.
  - intros [|k] p; [|done]. by intros [= <-].
Defined.

(** X9.  market.py's [get_offer_ids] stops on nothing but a page without a
    next-page token, or an exception.  After pages that carry a token, an
    error status is raised as it comes, a body without [result] raises
    [AttributeError], and when the replies are used up the loop is still
    asking for the next page.  In each case one request per page and one
    more have been sent, each with the token of the page before, and no list
    of offer ids is created. *)
Theorem market_get_offer_ids_fails pre tail e rest
    (w : world Market.request Market.page watch) :
  replies w = deliver pre ++ tail →
  ends_with tail e rest →
  (∀ p, p ∈ pre →
     Market.falsy (Market.nextPageToken (Market.paging p)) = false) →
  Market.get_offer_ids w
  = (inl e,
     answered w
       (map Market.OfferMappingEntries (EmptyString :: map market_token pre))
       rest).
Proof.
  intros Hrep Hend Hgo. rewrite run_market_get_offer_ids, Hrep.
  by rewrite (market_pages_go_on pre tail e rest).
Qed.

Lemma market_get_offer_ids_fails_witness :
  Market.get_offer_ids
    (World ∅ (deliver [Market.Page [Market.Entry (Market.Offer "a")]
                         (Market.Paging (Some "t1"))] ++ [])
       [] (inr []) [] (always EmptyString))
  = (inl NoResponse,
     World ∅ []
       [Market.OfferMappingEntries EmptyString; Market.OfferMappingEntries "t1"]
       (inr []) [] (always EmptyString)).
Proof.
  rewrite (market_get_offer_ids_fails
             [Market.Page [Market.Entry (Market.Offer "a")]
                (Market.Paging (Some "t1"))] [] NoResponse []).
  - reflexivity.
  - reflexivity.
  - constructor.
  - intros p [->|[]%elem_of_nil]%elem_of_cons. reflexivity.
Defined.

(** ** The uploaders and [main] of seller.py *)

Section SellerRuns.
Implicit Types (w : world Seller.request Seller.page watch)
  (pre : list Seller.page) (remnants : list watch).

(** The listing that succeeds, as in C6. *)
Lemma seller_listing_ok w pre last rest :
  replies w = deliver (pre ++ [last]) ++ rest →
  (∀ k p, pre !! k = Some p →
     Seller.total p ≠ Z.of_nat (length (seller_listed (take (S k) pre)))) →
  Seller.total last = Z.of_nat (length (seller_listed (pre ++ [last]))) →
  Seller.get_offer_ids w
  = (inr (fresh (dom (heap w))),
     set_heap
       (<[fresh (dom (heap w))
          := map Seller.product_offer_id (seller_listed (pre ++ [last]))]>
          (heap w))
       (answered w
          (map Seller.ProductList (EmptyString :: map Seller.last_id pre))
          rest)).
Proof.
  intros Hrep Hgo Hstop.
  unfold Seller.get_offer_ids, bind at 1, rounds. cbn iota beta.
  unfold bind at 1.
  rewrite (run_seller_pages pre last rest _ _ [] w Hrep); [|..|done].
  - unfold bind at 1. by rewrite run_collect_ids.
  - rewrite Hrep. unfold deliver.
    rewrite !length_app, length_map, length_app. lia.
  - done.
Qed.

(** [create_stocks] on a list object that holds [ids], from what it does on
    the list object of [seller_world ids]. *)
Lemma seller_create_stocks_transfer remnants ids res ws w r :
  Seller.create_stocks remnants 1%positive (seller_world ids) = (res, ws) →
  heap w !! r = Some ids →
  ∃ rem,
    heap ws !! 1%positive = Some rem
    ∧ Seller.create_stocks remnants r w
      = (res, set_heap (<[r := rem]> (heap w)) w).
Proof.
  intros Hrun Hids.
  rewrite seller_create_stocks_with in *.
  rewrite (run_create_stocks_with _ _ _ ids) in Hrun by reflexivity.
  rewrite (run_create_stocks_with _ _ _ ids) by done.
  injection Hrun as <- <-. eexists. split; [apply lookup_insert_eq|done].
Qed.

Lemma seller_create_prices_transfer remnants ids prices ws w r :
  Seller.create_prices remnants 1%positive (seller_world ids) = (inr prices, ws) →
  heap w !! r = Some ids →
  Seller.create_prices remnants r w = (inr prices, w).
Proof.
  intros Hrun Hids.
  rewrite (run_seller_create_prices _ _ ids) in Hrun by reflexivity.
  rewrite (run_seller_create_prices _ _ ids) by done. by injection Hrun as <- _.
Qed.

Lemma divide_total {A} (lst : list A) (n : Z) chunks :
  0 < n → Seller.divide lst n = inr chunks →
  Z.of_nat (length chunks) = (Z.of_nat (length lst) + n - 1) / n.
Proof.
  intros Hn. rewrite divide_chunks by done. intros [= <-].
  rewrite length_map, length_seq.
  pose proof (ceil_bounds (Z.of_nat (length lst)) n ltac:(lia) Hn) as [? _].
  lia.
Qed.
End SellerRuns.

(** X10.  The body of [upload_stocks], when the listing succeeds, no
    matched record is malformed and every push is accepted: the ids are
    listed, the stock list is built from the new list of ids, which is left
    holding the ids that no record matched, and the stock list is pushed in
    batches of 100 in order, one batch per started hundred of listed offers.
    It returns the stock list, preceded by its records with a stock that is
    not 0. *)
Theorem upload_stocks_run pre last acks rest remnants stocks ws rem chunks
    (w : world Seller.request Seller.page watch) :
  let ids := map Seller.product_offer_id (seller_listed (pre ++ [last])) in
  let r := fresh (dom (heap w)) in
  replies w = deliver (pre ++ [last]) ++ map inr acks ++ rest →
  (∀ k p, pre !! k = Some p →
     Seller.total p ≠ Z.of_nat (length (seller_listed (take (S k) pre)))) →
  Seller.total last = Z.of_nat (length (seller_listed (pre ++ [last]))) →
  Seller.create_stocks remnants 1%positive (seller_world ids) = (inr stocks, ws) →
  heap ws !! 1%positive = Some rem →
  Seller.divide stocks 100 = inr chunks →
  length acks = length chunks →
  Seller.upload_stocks remnants w
  = (inr (List.filter (fun s => negb (Seller.stock s =? 0)) stocks, stocks),
     World (<[r := rem]> (heap w)) rest
       (requests w
        ++ map Seller.ProductList (EmptyString :: map Seller.last_id pre)
        ++ map Seller.ImportStocks chunks)
       (ostatki w) (stdout w) (clock w))
  ∧ Z.of_nat (length chunks) = (Z.of_nat (length ids) + 99) / 100.
Proof.
  intros ids r Hrep Hgo Hstop Hstocks Hrem Hdiv Hacks. split.
  - unfold Seller.upload_stocks, bind at 1.
    rewrite (seller_listing_ok w pre last _ Hrep Hgo Hstop). fold ids r.
    set (w1 := set_heap _ _).
    destruct (seller_create_stocks_transfer remnants ids _ ws w1 r Hstocks)
      as (rem' & Hrem' & Hrun); [apply lookup_insert_eq|].
    assert (rem' = rem) as -> by congruence.
    unfold bind at 1. rewrite Hrun.
    unfold bind at 1, lift. rewrite Hdiv.
    unfold bind at 1, Seller.update_stocks. rewrite run_push.
    simpl replies. rewrite push_run_ok by done.
    unfold ret, answered, set_heap, w1. simpl.
    by rewrite insert_insert_eq, <- app_assoc.
  - rewrite (divide_total stocks 100 chunks) by done.
    rewrite seller_create_stocks_with in Hstocks.
    apply (create_stocks_with_returns _ _ _ ids) in Hstocks
      as (pairs & rem0 & Hof & -> & _); [|reflexivity].
    apply stocks_of_perm, Permutation_length in Hof.
    rewrite !length_map in *. rewrite Hof. f_equal. lia.
Qed.

Lemma upload_stocks_run_witness :
  Seller.upload_stocks [Watch "X" "5" "100.00 руб."] scenario_world
  = (inr ([Seller.Stock "X" 5], [Seller.Stock "X" 5; Seller.Stock "Y" 0]),
     World {[ 1%positive := ["Y"] ]} [inr None]
       [Seller.ProductList EmptyString;
        Seller.ImportStocks [Seller.Stock "X" 5; Seller.Stock "Y" 0]]
       (inr [Watch "X" "5" "100.00 руб."]) [] (always EmptyString)).
Proof.
  destruct (upload_stocks_run []
              (Seller.Page [Seller.Product "X"; Seller.Product "Y"] 2 "Y")
              [None] [inr None] [Watch "X" "5" "100.00 руб."]
              [Seller.Stock "X" 5; Seller.Stock "Y" 0]
              (set_heap {[ 1%positive := ["Y"] ]} (seller_world ["X"; "Y"]))
              ["Y"] [[Seller.Stock "X" 5; Seller.Stock "Y" 0]] scenario_world)
    as [Hrun _].
  - reflexivity.
  - intros k p Hk. by destruct k.
  - reflexivity.
  - by vm_compute.
  - reflexivity.
  - reflexivity.
  - reflexivity.
  - rewrite Hrun. by vm_compute.
Defined.

(** X11.  The body of [upload_prices], when the listing succeeds and every
    push is accepted: the ids are listed anew, the price list is built
    against them, with a record for every record of the supplier whose code
    is listed, and pushed in batches of 1000 in order.  The new list of ids
    is left as it was listed. *)
Theorem upload_prices_run pre last acks rest remnants prices ws chunks
    (w : world Seller.request Seller.page watch) :
  let ids := map Seller.product_offer_id (seller_listed (pre ++ [last])) in
  let r := fresh (dom (heap w)) in
  replies w = deliver (pre ++ [last]) ++ map inr acks ++ rest →
  (∀ k p, pre !! k = Some p →
     Seller.total p ≠ Z.of_nat (length (seller_listed (take (S k) pre)))) →
  Seller.total last = Z.of_nat (length (seller_listed (pre ++ [last]))) →
  Seller.create_prices remnants 1%positive (seller_world ids) = (inr prices, ws) →
  Seller.divide prices 1000 = inr chunks →
  length acks = length chunks →
  Seller.upload_prices remnants w
  = (inr prices,
     World (<[r := ids]> (heap w)) rest
       (requests w
        ++ map Seller.ProductList (EmptyString :: map Seller.last_id pre)
        ++ map Seller.ImportPrices chunks)
       (ostatki w) (stdout w) (clock w))
  ∧ map Seller.price_offer_id prices
    = filter (fun c => c ∈ ids) (map Kod remnants).
Proof.
  intros ids r Hrep Hgo Hstop Hprices Hdiv Hacks. split.
  - unfold Seller.upload_prices, bind at 1.
    rewrite (seller_listing_ok w pre last _ Hrep Hgo Hstop). fold ids r.
    set (w1 := set_heap _ _).
    unfold bind at 1.
    rewrite (seller_create_prices_transfer remnants ids prices ws w1 r Hprices)
      by apply lookup_insert_eq.
    unfold bind at 1, lift. rewrite Hdiv.
    unfold bind at 1, Seller.update_price. rewrite run_push.
    simpl replies. rewrite push_run_ok by done.
    unfold ret, answered, set_heap, w1. simpl.
    by rewrite <- app_assoc.
  - rewrite (run_seller_create_prices _ _ ids) in Hprices by reflexivity.
    injection Hprices as <- _.
    unfold seller_prices. rewrite map_map. simpl. apply filter_fmap_known.
Qed.

Lemma upload_prices_run_witness :
  Seller.upload_prices [Watch "X" "5" "100.00 руб."] scenario_world
  = (inr [Seller.Price "UNKNOWN" "RUB" "X" "0" "100"],
     World {[ 1%positive := ["X"; "Y"] ]} [inr None]
       [Seller.ProductList EmptyString;
        Seller.ImportPrices [Seller.Price "UNKNOWN" "RUB" "X" "0" "100"]]
       (inr [Watch "X" "5" "100.00 руб."]) [] (always EmptyString)).
Proof.
  destruct (upload_prices_run []
              (Seller.Page [Seller.Product "X"; Seller.Product "Y"] 2 "Y")
              [None] [inr None] [Watch "X" "5" "100.00 руб."]
              [Seller.Price "UNKNOWN" "RUB" "X" "0" "100"]
              (seller_world ["X"; "Y"])
              [[Seller.Price "UNKNOWN" "RUB" "X" "0" "100"]] scenario_world)
    as [Hrun _].
  - reflexivity.
  - intros k p Hk. by destruct k.
  - reflexivity.
  - by vm_compute.
  - reflexivity.
  - reflexivity.
  - rewrite Hrun. by vm_compute.
Defined.

(** X12.  [main] of seller.py when nothing fails: it lists the offer ids,
    builds the stock list and pushes it in batches of 100, then builds the
    price list against the list of ids that [create_stocks] has left, and
    pushes it in batches of 900.  It prints nothing.  When the listing
    holds no id twice, that price list is empty and no price is pushed. *)
Theorem seller_main_run pre last acks_stocks acks_prices rest remnants
    stocks ws rem prices ws' stock_batches price_batches
    (w : world Seller.request Seller.page watch) :
  let ids := map Seller.product_offer_id (seller_listed (pre ++ [last])) in
  let r := fresh (dom (heap w)) in
  replies w
  = deliver (pre ++ [last]) ++ map inr acks_stocks ++ map inr acks_prices ++ rest →
  (∀ k p, pre !! k = Some p →
     Seller.total p ≠ Z.of_nat (length (seller_listed (take (S k) pre)))) →
  Seller.total last = Z.of_nat (length (seller_listed (pre ++ [last]))) →
  ostatki w = inr remnants →
  Seller.create_stocks remnants 1%positive (seller_world ids) = (inr stocks, ws) →
  heap ws !! 1%positive = Some rem →
  Seller.create_prices remnants 1%positive ws = (inr prices, ws') →
  Seller.divide stocks 100 = inr stock_batches →
  Seller.divide prices 900 = inr price_batches →
  length acks_stocks = length stock_batches →
  length acks_prices = length price_batches →
  Seller.main w
  = (inr tt,
     World (<[r := rem]> (heap w)) rest
       (requests w
        ++ map Seller.ProductList (EmptyString :: map Seller.last_id pre)
        ++ map Seller.ImportStocks stock_batches
        ++ map Seller.ImportPrices price_batches)
       (ostatki w) (stdout w) (clock w))
  ∧ (NoDup ids → prices = [] ∧ price_batches = []).
Proof.
  intros ids r Hrep Hgo Hstop Hfile Hstocks Hrem Hprices Hsb Hpb Has Hap.
  split.
  - unfold Seller.main, try_except, bind at 1.
    rewrite (seller_listing_ok w pre last _ Hrep Hgo Hstop). fold ids r.
    set (w1 := set_heap _ _).
    unfold bind at 1, download_stock. simpl ostatki. rewrite Hfile.
    destruct (seller_create_stocks_transfer remnants ids _ ws w1 r Hstocks)
      as (rem' & Hrem' & Hrun); [apply lookup_insert_eq|].
    assert (rem' = rem) as -> by congruence.
    unfold bind at 1. rewrite Hrun.
    unfold bind at 1, lift. rewrite Hsb.
    unfold bind at 1, Seller.update_stocks. rewrite run_push.
    simpl replies. rewrite push_run_ok by done.
    set (w2 := answered _ _ _).
    rewrite (run_seller_create_prices _ _ rem) in Hprices by done.
    injection Hprices as <- _.
    unfold bind at 1.
    rewrite (run_seller_create_prices _ _ rem) by apply lookup_insert_eq.
    unfold bind at 1. rewrite Hpb.
    unfold Seller.update_price. rewrite run_push.
    simpl replies.
    rewrite <- (app_nil_r (map inr acks_prices ++ rest)), <- app_assoc.
    rewrite push_run_ok by done.
    unfold ret, answered, set_heap, w2, w1. simpl.
    by rewrite insert_insert_eq, app_nil_r, Hfile, <- !app_assoc.
  - intros Hnd.
    assert (prices = []) as ->.
    { pose proof (prices_after_stocks remnants ids 1%positive stocks
                    (seller_world ids) ws Hnd eq_refl Hstocks) as Hnone.
      congruence. }
    split; [done|]. by injection Hpb as <-.
Qed.

Lemma seller_main_run_witness :
  Seller.main scenario_world
  = (inr tt,
     World {[ 1%positive := ["Y"] ]} [inr None]
       [Seller.ProductList EmptyString;
        Seller.ImportStocks [Seller.Stock "X" 5; Seller.Stock "Y" 0]]
       (inr [Watch "X" "5" "100.00 руб."]) [] (always EmptyString)).
Proof.
  destruct (seller_main_run []
              (Seller.Page [Seller.Product "X"; Seller.Product "Y"] 2 "Y")
              [None] [] [inr None] [Watch "X" "5" "100.00 руб."]
              [Seller.Stock "X" 5; Seller.Stock "Y" 0]
              (set_heap {[ 1%positive := ["Y"] ]} (seller_world ["X"; "Y"]))
              ["Y"] []
              (set_heap {[ 1%positive := ["Y"] ]} (seller_world ["X"; "Y"]))
              [[Seller.Stock "X" 5; Seller.Stock "Y" 0]] []
              scenario_world) as [Hrun _].
  - reflexivity.
  - intros k p Hk. by destruct k.
  - reflexivity.
  - reflexivity.
  - by vm_compute.
  - reflexivity.
  - by vm_compute.
  - reflexivity.
  - reflexivity.
  - reflexivity.
  - reflexivity.
  - rewrite Hrun. by vm_compute.
Defined.

(** X13.  [main] of seller.py when the marketplace refuses a batch of
    stocks: the batches before it and that batch have been sent, no batch
    after it and no price is sent, one line is printed for the exception,
    and [main] returns. *)
Theorem seller_main_stops_at_refused_batch pre last oks e rest remnants
    stocks ws rem stock_batches
    (w : world Seller.request Seller.page watch) :
  let ids := map Seller.product_offer_id (seller_listed (pre ++ [last])) in
  let r := fresh (dom (heap w)) in
  replies w = deliver (pre ++ [last]) ++ map inr oks ++ inl e :: rest →
  (∀ k p, pre !! k = Some p →
     Seller.total p ≠ Z.of_nat (length (seller_listed (take (S k) pre)))) →
  Seller.total last = Z.of_nat (length (seller_listed (pre ++ [last]))) →
  ostatki w = inr remnants →
  Seller.create_stocks remnants 1%positive (seller_world ids) = (inr stocks, ws) →
  heap ws !! 1%positive = Some rem →
  Seller.divide stocks 100 = inr stock_batches →
  (length oks < length stock_batches)%nat →
  e ≠ NoResponse →
  Seller.main w
  = (inr tt,
     World (<[r := rem]> (heap w)) rest
       (requests w
        ++ map Seller.ProductList (EmptyString :: map Seller.last_id pre)
        ++ map Seller.ImportStocks (take (S (length oks)) stock_batches))
       (ostatki w) (stdout w ++ [error_line e]) (clock w)).
Proof.
  intros ids r Hrep Hgo Hstop Hfile Hstocks Hrem Hsb Hoks He.
  unfold Seller.main, try_except, bind at 1.
  rewrite (seller_listing_ok w pre last _ Hrep Hgo Hstop). fold ids r.
  set (w1 := set_heap _ _).
  unfold bind at 1, download_stock. simpl ostatki. rewrite Hfile.
  destruct (seller_create_stocks_transfer remnants ids _ ws w1 r Hstocks)
    as (rem' & Hrem' & Hrun); [apply lookup_insert_eq|].
  assert (rem' = rem) as -> by congruence.
  unfold bind at 1. rewrite Hrun.
  unfold bind at 1, lift. rewrite Hsb.
  unfold bind at 1, Seller.update_stocks. rewrite run_push.
  simpl replies. rewrite push_run_fails by done.
  unfold print, answered, set_heap, w1. simpl.
  rewrite insert_insert_eq, <- !app_assoc, ?Hfile.
  by destruct e.
Qed.

Lemma seller_main_stops_at_refused_batch_witness :
  Seller.main
    (World ∅
       [inr (Some (Seller.Page [Seller.Product "X"; Seller.Product "Y"] 2 "Y"));
        inl HTTPError; inr None]
       [] (inr [Watch "X" "5" "100.00 руб."]) [] (always EmptyString))
  = (inr tt,
     World {[ 1%positive := ["Y"] ]} [inr None]
       [Seller.ProductList EmptyString;
        Seller.ImportStocks [Seller.Stock "X" 5; Seller.Stock "Y" 0]]
       (inr [Watch "X" "5" "100.00 руб."]) ["ERROR_2"] (always EmptyString)).
Proof.
  rewrite (seller_main_stops_at_refused_batch []
             (Seller.Page [Seller.Product "X"; Seller.Product "Y"] 2 "Y")
             [] HTTPError [inr None] [Watch "X" "5" "100.00 руб."]
             [Seller.Stock "X" 5; Seller.Stock "Y" 0]
             (set_heap {[ 1%positive := ["Y"] ]} (seller_world ["X"; "Y"]))
             ["Y"] [[Seller.Stock "X" 5; Seller.Stock "Y" 0]]).
  - by vm_compute.
  - reflexivity.
  - intros k p Hk. by destruct k.
  - reflexivity.
  - reflexivity.
  - by vm_compute.
  - reflexivity.
  - reflexivity.
  - simpl. lia.
  - done.
Defined.

(** X14.  [main] of seller.py when the listing fails, by an error status
    or a body without [result], on the first page or a later one: the
    exception is caught, one line is printed for it, nothing is pushed, and
    [main] returns. *)
Theorem seller_main_listing_fails pre tail e rest
    (w : world Seller.request Seller.page watch) :
  replies w = deliver pre ++ tail →
  ends_with tail e rest → e ≠ NoResponse →
  (∀ k p, pre !! k = Some p →
     Seller.total p ≠ Z.of_nat (length (seller_listed (take (S k) pre)))) →
  Seller.main w
  = (inr tt,
     World (heap w) rest
       (requests w
        ++ map Seller.ProductList (EmptyString :: map Seller.last_id pre))
       (ostatki w) (stdout w ++ [error_line e]) (clock w)).
Proof.
  intros Hrep Hend He Hgo.
  unfold Seller.main, try_except, bind at 1.
  rewrite run_seller_get_offer_ids, Hrep.
  rewrite (seller_pages_go_on pre tail e rest) by done.
  by destruct e.
Qed.

Lemma seller_main_listing_fails_witness :
  Seller.main
    (World ∅ [inl ReadTimeout] [] (inr [Watch "X" "5" "100.00 руб."]) []
       (always EmptyString))
  = (inr tt,
     World ∅ [] [Seller.ProductList EmptyString]
       (inr [Watch "X" "5" "100.00 руб."]) ["Превышено время ожидания..."]
       (always EmptyString)).
Proof.
  rewrite (seller_main_listing_fails [] [inl ReadTimeout] ReadTimeout []).
  - reflexivity.
  - reflexivity.
  - constructor.
  - done.
  - intros k p Hk. by destruct k.
Defined.

(** X15.  [main] of seller.py when [create_stocks] raises on a malformed
    quantity: nothing at all is pushed, neither stocks nor prices; the line
    [ERROR_2] is printed and [main] returns.  The new list of ids is left
    as [create_stocks] left it. *)
Theorem seller_main_malformed_quantity pre last rest remnants e ws rem
    (w : world Seller.request Seller.page watch) :
  let ids := map Seller.product_offer_id (seller_listed (pre ++ [last])) in
  let r := fresh (dom (heap w)) in
  replies w = deliver (pre ++ [last]) ++ rest →
  (∀ k p, pre !! k = Some p →
     Seller.total p ≠ Z.of_nat (length (seller_listed (take (S k) pre)))) →
  Seller.total last = Z.of_nat (length (seller_listed (pre ++ [last]))) →
  ostatki w = inr remnants →
  Seller.create_stocks remnants 1%positive (seller_world ids) = (inl e, ws) →
  heap ws !! 1%positive = Some rem →
  Seller.main w
  = (inr tt,
     World (<[r := rem]> (heap w)) rest
       (requests w
        ++ map Seller.ProductList (EmptyString :: map Seller.last_id pre))
       (ostatki w) (stdout w ++ ["ERROR_2"]) (clock w)).
Proof.
  intros ids r Hrep Hgo Hstop Hfile Hstocks Hrem.
  assert (e = ValueError) as ->.
  { assert ((Seller.create_stocks remnants 1%positive (seller_world ids)).1
            = inl e) as Hres by by rewrite Hstocks.
    rewrite seller_create_stocks_with in Hres.
    apply (create_stocks_with_raises _ _ _ ids) in Hres as [rem0 Hpass];
      [|reflexivity].
    by apply stock_pass_raises in Hpass as [-> _]. }
  unfold Seller.main, try_except, bind at 1.
  rewrite (seller_listing_ok w pre last _ Hrep Hgo Hstop). fold ids r.
  set (w1 := set_heap _ _).
  unfold bind at 1, download_stock. simpl ostatki. rewrite Hfile.
  destruct (seller_create_stocks_transfer remnants ids _ ws w1 r Hstocks)
    as (rem' & Hrem' & Hrun); [apply lookup_insert_eq|].
  assert (rem' = rem) as -> by congruence.
  unfold bind at 1. rewrite Hrun.
  unfold print, set_heap, w1, answered. simpl.
  by rewrite insert_insert_eq, ?Hfile.
Qed.

Lemma seller_main_malformed_quantity_witness :
  Seller.main
    (World ∅
       [inr (Some (Seller.Page [Seller.Product "X"; Seller.Product "Y"] 2 "Y"));
        inr None; inr None]
       [] (inr [Watch "X" "5" "1.00"; Watch "Y" "many" "2.00"]) [] (always EmptyString))
  = (inr tt,
     World {[ 1%positive := ["Y"] ]} [inr None; inr None]
       [Seller.ProductList EmptyString]
       (inr [Watch "X" "5" "1.00"; Watch "Y" "many" "2.00"]) ["ERROR_2"]
       (always EmptyString)).
Proof.
  rewrite (seller_main_malformed_quantity []
             (Seller.Page [Seller.Product "X"; Seller.Product "Y"] 2 "Y")
             [inr None; inr None]
             [Watch "X" "5" "1.00"; Watch "Y" "many" "2.00"] ValueError
             (set_heap {[ 1%positive := ["Y"] ]} (seller_world ["X"; "Y"]))
             ["Y"]).
  - by vm_compute.
  - reflexivity.
  - intros k p Hk. by destruct k.
  - reflexivity.
  - reflexivity.
  - by vm_compute.
  - reflexivity.
Defined.

(** X16.  A download of the supplier's file that fails.  seller.py calls
    [download_stock] inside the [try], after the listing: the exception is
    caught, a line is printed, nothing is pushed.  market.py calls it before
    the [try]: [main] lets the exception through, and has sent and printed
    nothing. *)
Theorem download_fails e :
  (∀ (w : world Seller.request Seller.page watch) pre last rest,
     replies w = deliver (pre ++ [last]) ++ rest →
     (∀ k p, pre !! k = Some p →
        Seller.total p ≠ Z.of_nat (length (seller_listed (take (S k) pre)))) →
     Seller.total last = Z.of_nat (length (seller_listed (pre ++ [last]))) →
     ostatki w = inl e → e ≠ NoResponse →
     Seller.main w
     = (inr tt,
        World
          (<[fresh (dom (heap w))
             := map Seller.product_offer_id (seller_listed (pre ++ [last]))]>
             (heap w))
          rest
          (requests w
           ++ map Seller.ProductList (EmptyString :: map Seller.last_id pre))
          (ostatki w) (stdout w ++ [error_line e]) (clock w)))
  ∧ (∀ (w : world Market.request Market.page watch) fbs dbs,
       ostatki w = inl e → Market.main fbs dbs w = (inl e, w)).
Proof.
  split.
  - intros w pre last rest Hrep Hgo Hstop Hfile He.
    unfold Seller.main, try_except, bind at 1.
    rewrite (seller_listing_ok w pre last _ Hrep Hgo Hstop).
    unfold bind at 1, download_stock. simpl ostatki. rewrite Hfile.
    unfold print, set_heap, answered. simpl. rewrite ?Hfile.
    by destruct e.
  - intros w fbs dbs Hfile.
    unfold Market.main, bind at 1, download_stock. by rewrite Hfile.
Qed.

Lemma download_fails_witness :
  Seller.main
    (World ∅
       [inr (Some (Seller.Page [Seller.Product "X"] 1 "X")); inr None]
       [] (inl ConnectionError) [] (always EmptyString))
  = (inr tt,
     World {[ 1%positive := ["X"] ]} [inr None]
       [Seller.ProductList EmptyString] (inl ConnectionError)
       ["Ошибка соединения"] (always EmptyString))
  ∧ Market.main "fbs" "dbs"
      (World ∅ [] [] (inl ConnectionError) [] (always EmptyString))
    = (inl ConnectionError, World ∅ [] [] (inl ConnectionError) [] (always EmptyString)).
Proof.
  destruct (download_fails ConnectionError) as [Hseller Hmarket]. split.
  - rewrite (Hseller _ [] (Seller.Page [Seller.Product "X"] 1 "X") [inr None]).
    + by vm_compute.
    + reflexivity.
    + intros k p Hk. by destruct k.
    + reflexivity.
    + reflexivity.
    + done.
  - by apply Hmarket.
Defined.

(** ** What a computation can send *)

Section SendsOnly.
Context {Q P W : Type} (ok : Q → Prop).
Implicit Types (w : world Q P W).

Lemma sends_nothing {A} (c : M Q P W A) :
  (∀ w, requests (c w).2 = requests w) → sends_only ok c.
Proof. intros Hc w. exists []. by rewrite Hc, app_nil_r. Qed.

Lemma sends_only_ret {A} (x : A) : sends_only ok (ret (Q:=Q) (P:=P) (W:=W) x).
Proof. by apply sends_nothing. Qed.

Lemma sends_only_raise {A} e : sends_only ok (raise (Q:=Q) (P:=P) (W:=W) (A:=A) e).
Proof. by apply sends_nothing. Qed.

Lemma sends_only_lift {A} (r : exn + A) : sends_only ok (lift (Q:=Q) (P:=P) (W:=W) r).
Proof. by apply sends_nothing. Qed.

Lemma sends_only_bind {A B} (c : M Q P W A) (k : A → M Q P W B) :
  sends_only ok c → (∀ x, sends_only ok (k x)) → sends_only ok (bind c k).
Proof.
  intros Hc Hk w. unfold bind. destruct (Hc w) as (sent1 & Hreq1 & Hok1).
  destruct (c w) as [[e|x] w1]; simpl in *; [eauto|].
  destruct (Hk x w1) as (sent2 & Hreq2 & Hok2).
  exists (sent1 ++ sent2). rewrite Hreq2, Hreq1, app_assoc.
  split; [done|]. by apply Forall_app.
Qed.

Lemma sends_only_for_loop {A S} (l : list A) (body : A → S → M Q P W S) s :
  (∀ x s, sends_only ok (body x s)) → sends_only ok (for_loop l body s).
Proof.
  intros Hbody. revert s. induction l as [|x l IH]; intros s; simpl.
  - apply sends_only_ret.
  - by apply sends_only_bind.
Qed.

Lemma sends_only_while_true {S R} fuel (body : S → M Q P W (S + R)) s :
  (∀ s, sends_only ok (body s)) → sends_only ok (while_true fuel body s).
Proof.
  intros Hbody. revert s. induction fuel as [|fuel IH]; intros s; simpl.
  - apply sends_only_raise.
  - apply sends_only_bind; [done|]. intros [s'|x]; [done|apply sends_only_ret].
Qed.

Lemma sends_only_try_except {A} (c : M Q P W A) handler :
  sends_only ok c → (∀ e, sends_only ok (handler e)) →
  sends_only ok (try_except c handler).
Proof.
  intros Hc Hh w. unfold try_except. destruct (Hc w) as (sent1 & Hreq1 & Hok1).
  destruct (c w) as [[e|x] w1]; simpl in *; [|eauto].
  assert (∃ sent, requests (handler e w1).2 = requests w ++ sent
                  ∧ Forall ok sent) as Hcaught.
  { destruct (Hh e w1) as (sent2 & Hreq2 & Hok2).
    exists (sent1 ++ sent2). rewrite Hreq2, Hreq1, app_assoc.
    split; [done|]. by apply Forall_app. }
  destruct e; eauto.
Qed.

Lemma sends_only_http q : ok q → sends_only ok (http (P:=P) (W:=W) q).
Proof.
  intros Hq w. exists [q]. split; [|by constructor].
  unfold http. by destruct (replies w).
Qed.

Lemma sends_only_read_list r : sends_only ok (read_list (Q:=Q) (P:=P) (W:=W) r).
Proof. apply sends_nothing. intros w. unfold read_list. by destruct (heap w !! r). Qed.

Lemma sends_only_list_contains r x :
  sends_only ok (list_contains (Q:=Q) (P:=P) (W:=W) r x).
Proof.
  apply sends_only_bind; [apply sends_only_read_list|].
  intros l. apply sends_only_ret.
Qed.

Lemma sends_only_list_remove r x :
  sends_only ok (list_remove (Q:=Q) (P:=P) (W:=W) r x).
Proof.
  apply sends_only_bind; [apply sends_only_read_list|]. intros l.
  apply sends_only_bind; [apply sends_only_lift|]. intros l'.
  by apply sends_nothing.
Qed.

Lemma sends_only_new_list l : sends_only ok (new_list (Q:=Q) (P:=P) (W:=W) l).
Proof. by apply sends_nothing. Qed.

Lemma sends_only_download : sends_only ok (download_stock (Q:=Q) (P:=P) (W:=W)).
Proof. by apply sends_nothing. Qed.

Lemma sends_only_utcnow : sends_only ok (utcnow_iso (Q:=Q) (P:=P) (W:=W)).
Proof. by apply sends_nothing. Qed.

Lemma sends_only_print s : sends_only ok (print (Q:=Q) (P:=P) (W:=W) s).
Proof. by apply sends_nothing. Qed.

Lemma sends_only_rounds : sends_only ok (rounds (Q:=Q) (P:=P) (W:=W)).
Proof. by apply sends_nothing. Qed.

Lemma sends_only_call_async {A} (body : M Q P W A) :
  sends_only ok (call_async body).
Proof. by apply sends_nothing. Qed.
End SendsOnly.

Section MarketSends.
Implicit Types (ok : Market.request → Prop).

Lemma market_get_offer_ids_sends ok :
  (∀ page, ok (Market.OfferMappingEntries page)) →
  sends_only ok Market.get_offer_ids.
Proof.
  intros Hok. unfold Market.get_offer_ids.
  apply sends_only_bind; [apply sends_only_rounds|]. intros fuel.
  apply sends_only_bind.
  - apply sends_only_while_true. intros [page product_list].
    apply sends_only_bind; [by apply sends_only_http|].
    intros [some_prod|]; [|apply sends_only_raise].
    destruct (Market.falsy _); apply sends_only_ret.
  - intros product_list. apply sends_only_bind; [|apply sends_only_new_list].
    apply sends_only_for_loop. intros. apply sends_only_ret.
Qed.

Lemma market_create_stocks_sends ok remnants r warehouse_id :
  sends_only ok (Market.create_stocks remnants r warehouse_id).
Proof.
  unfold Market.create_stocks.
  apply sends_only_bind; [apply sends_only_utcnow|]. intros now.
  apply sends_only_bind.
  - apply sends_only_for_loop. intros v stocks.
    apply sends_only_bind; [apply sends_only_list_contains|].
    intros [|]; [|apply sends_only_ret].
    apply sends_only_bind.
    + repeat case_bool_decide;
        first [apply sends_only_ret | apply sends_only_lift].
    + intros stock. apply sends_only_bind; [apply sends_only_list_remove|].
      intros _. apply sends_only_ret.
  - intros stocks. apply sends_only_bind; [apply sends_only_read_list|].
    intros remaining. apply sends_only_for_loop. intros. apply sends_only_ret.
Qed.

Lemma market_push_stocks_sends ok (batches : list (list Market.stock_rec)) :
  (∀ stocks, ok (Market.OfferStocks stocks)) →
  sends_only ok
    (for_loop batches (fun some_stock _ => Market.update_stocks some_stock) tt).
Proof.
  intros Hok. apply sends_only_for_loop. intros stocks _.
  unfold Market.update_stocks.
  apply sends_only_bind; [by apply sends_only_http|].
  intros _. apply sends_only_ret.
Qed.
End MarketSends.

(** X17.  [main] of market.py never sends a request for prices: it calls
    [upload_prices] and does not await it, so the body never runs.  From any
    world, whatever the marketplace answers, the requests that [main] adds
    to the log are listings and pushes of stocks. *)
Theorem market_main_sends_no_price warehouse_fbs_id warehouse_dbs_id
    (w : world Market.request Market.page watch) :
  ∃ sent,
    requests (Market.main warehouse_fbs_id warehouse_dbs_id w).2
    = requests w ++ sent
    ∧ Forall (fun q => ∀ prices, q ≠ Market.OfferPrices prices) sent.
Proof.
  set (ok := fun q => ∀ prices, q ≠ Market.OfferPrices prices).
  assert (∀ page, ok (Market.OfferMappingEntries page)) as Hlist by done.
  assert (∀ stocks, ok (Market.OfferStocks stocks)) as Hpush by done.
  revert w. change (sends_only ok (Market.main warehouse_fbs_id warehouse_dbs_id)).
  unfold Market.main.
  apply sends_only_bind; [apply sends_only_download|]. intros remnants.
  apply sends_only_try_except.
  - apply sends_only_bind; [by apply market_get_offer_ids_sends|]. intros r1.
    apply sends_only_bind; [apply market_create_stocks_sends|]. intros stocks1.
    apply sends_only_bind; [apply sends_only_lift|]. intros batches1.
    apply sends_only_bind; [by apply market_push_stocks_sends|]. intros _.
    apply sends_only_bind; [apply sends_only_call_async|]. intros _.
    apply sends_only_bind; [by apply market_get_offer_ids_sends|]. intros r2.
    apply sends_only_bind; [apply market_create_stocks_sends|]. intros stocks2.
    apply sends_only_bind; [apply sends_only_lift|]. intros batches2.
    apply sends_only_bind; [by apply market_push_stocks_sends|]. intros _.
    apply sends_only_bind; [apply sends_only_call_async|]. intros _.
    apply sends_only_ret.
  - intros e. destruct e; apply sends_only_print.
Qed.

(** ** [main] and [upload_prices] of market.py *)

Section MarketRuns.
Implicit Types (w : world Market.request Market.page watch)
  (pre : list Market.page) (remnants : list watch).

Lemma market_listing_ok w pre last rest :
  replies w = deliver (pre ++ [last]) ++ rest →
  (∀ p, p ∈ pre →
     Market.falsy (Market.nextPageToken (Market.paging p)) = false) →
  Market.falsy (Market.nextPageToken (Market.paging last)) = true →
  Market.get_offer_ids w
  = (inr (fresh (dom (heap w))),
     set_heap
       (<[fresh (dom (heap w))
          := map (fun e => Market.shopSku (Market.offer e))
               (market_listed (pre ++ [last]))]> (heap w))
       (answered w
          (map Market.OfferMappingEntries (EmptyString :: map market_token pre))
          rest)).
Proof.
  intros Hrep Hgo Hstop.
  unfold Market.get_offer_ids, bind at 1, rounds. cbn iota beta.
  unfold bind at 1.
  rewrite (run_market_pages pre last rest _ _ [] w Hrep); [|..|done].
  - unfold bind at 1. by rewrite run_collect_ids.
  - rewrite Hrep. unfold deliver.
    rewrite !length_app, length_map, length_app. lia.
  - done.
Qed.

Lemma market_create_stocks_transfer remnants ids warehouse_id res ws w r :
  Market.create_stocks remnants 1%positive warehouse_id
    (market_world ids (clock w)) = (res, ws) →
  heap w !! r = Some ids →
  ∃ rem,
    heap ws !! 1%positive = Some rem
    ∧ Market.create_stocks remnants r warehouse_id w
      = (res, set_heap (<[r := rem]> (heap w)) (tick w)).
Proof.
  intros Hrun Hids.
  rewrite market_create_stocks_with in *.
  rewrite (run_create_stocks_with _ _ _ ids (tick (market_world ids (clock w))))
    in Hrun by reflexivity.
  rewrite (run_create_stocks_with _ _ _ ids (tick w)) by done.
  simpl in Hrun. injection Hrun as <- <-.
  eexists. split; [apply lookup_insert_eq|done].
Qed.
End MarketRuns.

(** X18.  The body of market.py's [upload_prices], when the listing
    succeeds.  If [create_prices] returns and every push is accepted, the
    price list is pushed in batches of 500 in order and returned.  If
    [create_prices] raises, on a price that [int] refuses, the exception goes
    through and no price at all has been pushed.  Either way the new list
    of ids is left as it was listed. *)
Theorem market_upload_prices_run pre last rest remnants
    (w : world Market.request Market.page watch) :
  let ids := map (fun e => Market.shopSku (Market.offer e))
               (market_listed (pre ++ [last])) in
  let r := fresh (dom (heap w)) in
  let listing :=
    map Market.OfferMappingEntries (EmptyString :: map market_token pre) in
  (∀ p, p ∈ pre →
     Market.falsy (Market.nextPageToken (Market.paging p)) = false) →
  Market.falsy (Market.nextPageToken (Market.paging last)) = true →
  (∀ prices ws chunks acks,
     replies w = deliver (pre ++ [last]) ++ map inr acks ++ rest →
     Market.create_prices remnants 1%positive (market_world ids (clock w))
     = (inr prices, ws) →
     Seller.divide prices 500 = inr chunks →
     length acks = length chunks →
     Market.upload_prices remnants w
     = (inr prices,
        World (<[r := ids]> (heap w)) rest
          (requests w ++ listing ++ map Market.OfferPrices chunks)
          (ostatki w) (stdout w) (clock w)))
  ∧ (∀ e ws,
       replies w = deliver (pre ++ [last]) ++ rest →
       Market.create_prices remnants 1%positive (market_world ids (clock w))
       = (inl e, ws) →
       Market.upload_prices remnants w
       = (inl e,
          World (<[r := ids]> (heap w)) rest (requests w ++ listing)
            (ostatki w) (stdout w) (clock w))).
Proof.
  intros ids r listing Hgo Hstop. split.
  - intros prices ws chunks acks Hrep Hprices Hdiv Hacks.
    unfold Market.upload_prices, bind at 1.
    rewrite (market_listing_ok w pre last _ Hrep Hgo Hstop). fold ids r listing.
    rewrite (run_market_create_prices _ _ ids) in Hprices by reflexivity.
    injection Hprices as Hprices _.
    unfold bind at 1.
    rewrite (run_market_create_prices _ _ ids) by apply lookup_insert_eq.
    rewrite Hprices.
    unfold bind at 1, lift. rewrite Hdiv.
    unfold bind at 1, Market.update_price. rewrite run_push.
    simpl replies. rewrite push_run_ok by done.
    unfold ret, answered, set_heap. simpl. by rewrite <- app_assoc.
  - intros e ws Hrep Hprices.
    unfold Market.upload_prices, bind at 1.
    rewrite (market_listing_ok w pre last _ Hrep Hgo Hstop). fold ids r listing.
    rewrite (run_market_create_prices _ _ ids) in Hprices by reflexivity.
    injection Hprices as Hprices _.
    unfold bind at 1.
    rewrite (run_market_create_prices _ _ ids) by apply lookup_insert_eq.
    by rewrite Hprices.
Qed.

Lemma market_upload_prices_run_witness :
  Market.upload_prices [Watch "X" "5" "100.00 руб."; Watch "Y" "1" "руб."]
    market_two_pages
  = (inl ValueError,
     World {[ 1%positive := ["X"; "Y"] ]} []
       [Market.OfferMappingEntries EmptyString; Market.OfferMappingEntries "t1"]
       (inr []) [] (always EmptyString)).
Proof.
  destruct (market_upload_prices_run
              [Market.Page [Market.Entry (Market.Offer "X")]
                 (Market.Paging (Some "t1"))]
              (Market.Page [Market.Entry (Market.Offer "Y")] (Market.Paging None))
              [] [Watch "X" "5" "100.00 руб."; Watch "Y" "1" "руб."]
              market_two_pages) as [_ Hfail].
  - intros p [->|[]%elem_of_nil]%elem_of_cons. reflexivity.
  - reflexivity.
  - rewrite (Hfail ValueError (market_world ["X"; "Y"] (always EmptyString))).
    + by vm_compute.
    + reflexivity.
    + by vm_compute.
Defined.

(** X19.  [main] of market.py when nothing fails: for the FBS account and
    then for the DBS account it lists the offer ids into a new list, builds
    the stock list for the account's warehouse from the same supplier's
    file, and pushes it in batches of 2000.  Each account has its own list of
    ids, so the second stock list does not depend on what the first pass
    consumed.  Each call of [create_stocks] reads the clock for itself: the
    FBS list is dated with the first reading, the DBS list with the second,
    and two readings have been taken at the end.  Nothing is printed. *)
Theorem market_main_run pre1 last1 acks1 pre2 last2 acks2 rest remnants
    warehouse_fbs_id warehouse_dbs_id stocks1 ws1 rem1 batches1
    stocks2 ws2 rem2 batches2
    (w : world Market.request Market.page watch) :
  let sku := fun e => Market.shopSku (Market.offer e) in
  let ids1 := map sku (market_listed (pre1 ++ [last1])) in
  let ids2 := map sku (market_listed (pre2 ++ [last2])) in
  let r1 := fresh (dom (heap w)) in
  let r2 := fresh (dom (<[r1 := rem1]> (heap w))) in
  replies w
  = deliver (pre1 ++ [last1]) ++ map inr acks1
    ++ deliver (pre2 ++ [last2]) ++ map inr acks2 ++ rest →
  (∀ p, p ∈ pre1 ++ pre2 →
     Market.falsy (Market.nextPageToken (Market.paging p)) = false) →
  Market.falsy (Market.nextPageToken (Market.paging last1)) = true →
  Market.falsy (Market.nextPageToken (Market.paging last2)) = true →
  ostatki w = inr remnants →
  Market.create_stocks remnants 1%positive warehouse_fbs_id
    (market_world ids1 (clock w)) = (inr stocks1, ws1) →
  heap ws1 !! 1%positive = Some rem1 →
  Market.create_stocks remnants 1%positive warehouse_dbs_id
    (market_world ids2 (fun n => clock w (S n))) = (inr stocks2, ws2) →
  heap ws2 !! 1%positive = Some rem2 →
  Seller.divide stocks1 2000 = inr batches1 →
  Seller.divide stocks2 2000 = inr batches2 →
  length acks1 = length batches1 →
  length acks2 = length batches2 →
  Market.main warehouse_fbs_id warehouse_dbs_id w
  = (inr tt,
     World (<[r2 := rem2]> (<[r1 := rem1]> (heap w))) rest
       (requests w
        ++ map Market.OfferMappingEntries (EmptyString :: map market_token pre1)
        ++ map Market.OfferStocks batches1
        ++ map Market.OfferMappingEntries (EmptyString :: map market_token pre2)
        ++ map Market.OfferStocks batches2)
       (ostatki w) (stdout w) (fun n => clock w (S (S n)))).
Proof.
  intros sku ids1 ids2 r1 r2 Hrep Hgo Hstop1 Hstop2 Hfile
    Hstocks1 Hrem1 Hstocks2 Hrem2 Hdiv1 Hdiv2 Hacks1 Hacks2.
  unfold Market.main, bind at 1, download_stock. rewrite Hfile.
  unfold try_except, bind at 1.
  rewrite (market_listing_ok w pre1 last1 _ Hrep); [|set_solver|done].
  fold sku ids1 r1. set (wa := set_heap _ _).
  destruct (market_create_stocks_transfer remnants ids1 warehouse_fbs_id _ ws1
              wa r1 Hstocks1) as (rem' & Hrem' & Hrun1);
    [apply lookup_insert_eq|].
  assert (rem' = rem1) as -> by congruence.
  unfold bind at 1. rewrite Hrun1.
  unfold bind at 1, lift. rewrite Hdiv1.
  unfold bind at 1, Market.update_stocks. rewrite run_push.
  simpl replies. rewrite push_run_ok by done.
  unfold bind at 1, call_async, ret at 1.
  set (wb := answered _ _ _).
  assert (fresh (dom (heap wb)) = r2) as Hr2.
  { unfold r2, wb, wa. simpl. by rewrite insert_insert_eq. }
  unfold bind at 1.
  rewrite (market_listing_ok wb pre2 last2 (map inr acks2 ++ rest));
    [|done|set_solver|done].
  fold sku ids2. rewrite Hr2. set (wc := set_heap _ _).
  destruct (market_create_stocks_transfer remnants ids2 warehouse_dbs_id _ ws2
              wc r2 Hstocks2) as (rem'' & Hrem'' & Hrun2);
    [apply lookup_insert_eq|].
  assert (rem'' = rem2) as -> by congruence.
  unfold bind at 1. rewrite Hrun2.
  unfold bind at 1, lift. rewrite Hdiv2.
  unfold bind at 1, Market.update_stocks. rewrite run_push.
  simpl replies. rewrite push_run_ok by done.
  unfold bind, call_async, ret, answered, set_heap, wc, wb, wa. simpl.
  rewrite !insert_insert_eq, <- !app_assoc, ?Hfile. done.
Qed.

Lemma market_main_run_witness :
  let run := Market.main "W1" "W2" market_accounts in
  run.1 = inr tt
  ∧ heap (run.2) = {[ 1%positive := []; 2%positive := ["Z"] ]}
  ∧ requests (run.2)
    = [Market.OfferMappingEntries EmptyString;
       Market.OfferStocks
         [Market.Stock "X" "W1" [Market.Item 5 "FIT" "2024-01-01T00:00:00Z"]];
       Market.OfferMappingEntries EmptyString;
       Market.OfferStocks
         [Market.Stock "X" "W2" [Market.Item 5 "FIT" "2024-01-01T00:00:07Z"];
          Market.Stock "Z" "W2" [Market.Item 0 "FIT" "2024-01-01T00:00:07Z"]]].
Proof.
  cbv zeta.
  erewrite (market_main_run []
              (Market.Page [Market.Entry (Market.Offer "X")] (Market.Paging None))
              [None] []
              (Market.Page [Market.Entry (Market.Offer "X");
                            Market.Entry (Market.Offer "Z")]
                 (Market.Paging (Some EmptyString)))
              [None] [] [Watch "X" "5" "100.00 руб."] "W1" "W2"); cycle 1.
  - reflexivity.
  - intros p Hp. by apply elem_of_nil in Hp.
  - reflexivity.
  - reflexivity.
  - reflexivity.
  - vm_compute. reflexivity.
  - vm_compute. reflexivity.
  - vm_compute. reflexivity.
  - vm_compute. reflexivity.
  - vm_compute. reflexivity.
  - vm_compute. reflexivity.
  - reflexivity.
  - reflexivity.
  - split_and!; by vm_compute.
Defined.
